(** * Jobly back end: the query-construction layer and the authorization gate

    A shallow embedding of
    - [helpers/sql.js]      ([sqlForPartialUpdate]),
    - the company model     ([Company.create], [findAll], [get], [update],
                             [remove]),
    - the job model that filters in [findAll]
                            ([JobAlt.create], [findAll], [get], [update],
                             [remove]),
    - [models/job.js]       ([Job.create], [findAll], [searchAll], [get],
                             [update], [remove]),
    - the user model        ([User.authenticate], [register], [findAll],
                             [get], [update], [remove], [applyToJob]),
    - [middleware/auth.js]  ([authenticateJWT], [ensureLoggedIn],
                             [ensureAdmin], [ensureAdminOrSelf]),
    followed by the properties of the specification that these functions
    decide and by further properties of the code. *)

From Stdlib Require Import String Ascii List ZArith Lia Bool Arith.
From Stdlib Require Import Permutation.
From Stdlib Require Import Decimal DecimalNat DecimalFacts DecimalString.
Import ListNotations.

Open Scope string_scope.

(* ================================================================= *)
(** ** JavaScript values, objects and the array methods the code uses *)

Module Js.

(** The primitive values that reach the builders.  [JsNum] stands for the
    integral numbers (ids, salaries, head counts), in the range where
    ToString writes a number as its plain decimal numeral; NaN only arises
    inside the relational comparison, as the [None] of [ToNumber]. *)
Inductive JsValue : Type :=
| JsUndefined
| JsNull
| JsBool (b : bool)
| JsNum (z : Z)
| JsStr (s : string).

(** ToBoolean: [undefined], [null], [false], [0] and the empty string are
    falsy. *)
Definition truthy (v : JsValue) : bool :=
  match v with
  | JsUndefined | JsNull => false
  | JsBool b => b
  | JsNum z => negb (z =? 0)%Z
  | JsStr s => negb (s =? "")
  end.

(** Number-to-string conversion of an array index or length. *)
Definition Number_toString (n : nat) : string :=
  NilEmpty.string_of_uint (Nat.to_uint n).

(** ToString, as a template literal applies it to a substituted value. *)
Definition ToString (v : JsValue) : string :=
  match v with
  | JsUndefined => "undefined"
  | JsNull => "null"
  | JsBool true => "true"
  | JsBool false => "false"
  | JsNum z => NilEmpty.string_of_int (Z.to_int z)
  | JsStr s => s
  end.

(** [a || b]. *)
Definition or (a b : JsValue) : JsValue := if truthy a then a else b.

Definition JsValue_eqb (a b : JsValue) : bool :=
  match a, b with
  | JsUndefined, JsUndefined => true
  | JsNull, JsNull => true
  | JsBool x, JsBool y => Bool.eqb x y
  | JsNum x, JsNum y => (x =? y)%Z
  | JsStr x, JsStr y => (x =? y)
  | _, _ => false
  end.

(** [a !== b] (strict inequality: no coercion). *)
Definition strict_neq (a b : JsValue) : bool := negb (JsValue_eqb a b).

(** [a > b]: two strings are compared by code units; otherwise both sides
    go through ToNumber and a NaN on either side makes the comparison false.
    The numeric value of a string (StringToNumber) is left as a parameter:
    [None] is NaN. *)
Section RelationalComparison.
Variable StringToNumber : string -> option Z.

Definition ToNumber (v : JsValue) : option Z :=
  match v with
  | JsUndefined => None
  | JsNull => Some 0%Z
  | JsBool b => Some (if b then 1 else 0)%Z
  | JsNum z => Some z
  | JsStr s => StringToNumber s
  end.

Definition gt (a b : JsValue) : bool :=
  match a, b with
  | JsStr s, JsStr t => String.ltb t s
  | _, _ =>
      match ToNumber a, ToNumber b with
      | Some x, Some y => (y <? x)%Z
      | _, _ => false
      end
  end.
End RelationalComparison.

(** A plain object, as the list of its own enumerable properties in the order
    [Object.keys] reports them.  Keys of an object are pairwise distinct.
    Its prototype is [Object.prototype]; the members inherited from there
    are found by [read] below. *)
Definition JsObject : Type := list (string * JsValue).

Definition Object_keys (o : JsObject) : list string := map fst o.
Definition Object_values (o : JsObject) : list JsValue := map snd o.

(** Property read [o.k] for a name [k] written in the code (also what
    destructuring [const {k} = o] does): [undefined] when [o] has no such
    property.  None of the names the code reads this way is the name of a
    member of [Object.prototype]. *)
Fixpoint get (o : JsObject) (k : string) : JsValue :=
  match o with
  | [] => JsUndefined
  | (k', v) :: o' => if k' =? k then v else get o' k
  end.

(** The text of a built-in function, as ToString gives it. *)
Definition native_function (name : string) : string :=
  "function " ++ name ++ "() { [native code] }".

(** The members a plain object inherits from [Object.prototype], each with
    the text ToString gives for what a read of it returns: the built-in
    functions, and [__proto__], whose getter returns the prototype object
    itself. *)
Definition Object_prototype : list (string * string) :=
  [("constructor", native_function "Object");
   ("__defineGetter__", native_function "__defineGetter__");
   ("__defineSetter__", native_function "__defineSetter__");
   ("hasOwnProperty", native_function "hasOwnProperty");
   ("__lookupGetter__", native_function "__lookupGetter__");
   ("__lookupSetter__", native_function "__lookupSetter__");
   ("isPrototypeOf", native_function "isPrototypeOf");
   ("propertyIsEnumerable", native_function "propertyIsEnumerable");
   ("toString", native_function "toString");
   ("valueOf", native_function "valueOf");
   ("__proto__", "[object Object]");
   ("toLocaleString", native_function "toLocaleString")].

(** The entry of an association list for a key. *)
Fixpoint assoc {A : Type} (l : list (string * A)) (k : string) : option A :=
  match l with
  | [] => None
  | (k', a) :: l' => if k' =? k then Some a else assoc l' k
  end.

(** The text of the member of [Object.prototype] named [k]. *)
Definition inherited (k : string) : option string := assoc Object_prototype k.

(** What the property read [o[k]] finds for a key computed at run time: an
    own property of [o], which hides an inherited member of the same name;
    otherwise the member of [Object.prototype] of that name, an object or a
    function; otherwise nothing, and the read gives [undefined]. *)
Inductive Property : Type :=
| Own (v : JsValue)
| Inherited (text : string)
| Missing.

Definition read (o : JsObject) (k : string) : Property :=
  match assoc o k with
  | Some v => Own v
  | None =>
      match inherited k with
      | Some text => Inherited text
      | None => Missing
      end
  end.

(** [delete o[k]]. *)
Definition delete (o : JsObject) (k : string) : JsObject :=
  filter (fun kv => negb (fst kv =? k)) o.

(** [xs.join(sep)] on an array of strings. *)
Fixpoint join (sep : string) (xs : list string) : string :=
  match xs with
  | [] => ""
  | [x] => x
  | x :: xs' => x ++ sep ++ join sep xs'
  end.

(** [xs.map((x, idx) => f x idx)], the index counted from [i]. *)
Fixpoint mapi_from {A B : Type} (f : A -> nat -> B) (i : nat) (xs : list A)
  : list B :=
  match xs with
  | [] => []
  | x :: xs' => f x i :: mapi_from f (S i) xs'
  end.

Definition mapi {A B : Type} (f : A -> nat -> B) (xs : list A) : list B :=
  mapi_from f 0 xs.

(** [xs.push(x)], returning the array after the push. *)
Definition push {A : Type} (xs : list A) (x : A) : list A := xs ++ [x].

(** The double-quote character, as a one-character string. *)
Definition dquote : string := String "034"%char EmptyString.

(** The line break of a multi-line template literal. *)
Definition nl : string := String "010"%char EmptyString.

(** Property write [o[k] = v]: in place when [o] has the property, added
    after the others when it has not. *)
Fixpoint set (o : JsObject) (k : string) (v : JsValue) : JsObject :=
  match o with
  | [] => [(k, v)]
  | (k', x) :: o' =>
      if k' =? k then (k', v) :: o' else (k', x) :: set o' k v
  end.

(** [s] without the prefix [p], when it has that prefix. *)
Fixpoint strip_prefix (p s : string) : option string :=
  match p, s with
  | EmptyString, _ => Some s
  | String a p', String b s' =>
      if (a =? b)%char then strip_prefix p' s' else None
  | String _ _, EmptyString => None
  end.

(** [s.replace(/^[Bb]earer /, "")]. *)
Definition replace_bearer (s : string) : string :=
  match strip_prefix "Bearer " s with
  | Some rest => rest
  | None =>
      match strip_prefix "bearer " s with
      | Some rest => rest
      | None => s
      end
  end.

(** The white space and line terminators among the characters of the model
    (code units below 256): tab, line feed, vertical tab, form feed,
    carriage return, space, no-break space. *)
Definition is_space (c : ascii) : bool :=
  let code := nat_of_ascii c in
  ((9 <=? code)%nat && (code <=? 13)%nat)
  || (code =? 32)%nat || (code =? 160)%nat.

Fixpoint trimStart (s : string) : string :=
  match s with
  | String c s' => if is_space c then trimStart s' else s
  | EmptyString => EmptyString
  end.

Fixpoint trimEnd (s : string) : string :=
  match s with
  | EmptyString => EmptyString
  | String c s' =>
      match trimEnd s' with
      | EmptyString => if is_space c then EmptyString else String c EmptyString
      | rest => String c rest
      end
  end.

(** [s.trim()]. *)
Definition trim (s : string) : string := trimEnd (trimStart s).

End Js.

Import Js.

(* ================================================================= *)
(** ** Errors ([expressError.js]) and the storage collaborator ([db.js]) *)

(** The error classes the modelled code throws.  [TypeError] is the
    run-time error of calling a value that is not a function. *)
Inductive Exception : Type :=
| BadRequestError (message : string)
| UnauthorizedError
| ForbiddenError
| NotFoundError (message : string)
| TypeError (message : string).

Record QueryResult : Type := { rows : list JsObject }.

(** What an [async] model function does: it finishes with a value, throws,
    or hands a query text with its parameter list to [db.query] and goes on
    with the rows that come back. *)
Inductive Db (A : Type) : Type :=
| Ret (a : A)
| Throw (e : Exception)
| Query (text : string) (parameters : list JsValue) (k : QueryResult -> Db A).

Arguments Ret {A} a.
Arguments Throw {A} e.
Arguments Query {A} text parameters k.

(** The queries an action sends when the store answers with [answer]. *)
Fixpoint queries_sent {A : Type} (answer : string -> list JsValue -> QueryResult)
  (m : Db A) : list (string * list JsValue) :=
  match m with
  | Ret _ => []
  | Throw _ => []
  | Query text parameters k =>
      (text, parameters) :: queries_sent answer (k (answer text parameters))
  end.

(** [result.rows[0]]: [None] is [undefined]. *)
Definition first_row (result : QueryResult) : option JsObject :=
  hd_error (rows result).

(** Running an action against a store.  The store has a state, answers a
    query with rows or rejects it, and moves to a new state; a rejection
    ends the action with that error, as no model function catches it. *)
Record Outcome (A S : Type) : Type :=
  { result : Exception + A;
    sent : list (string * list JsValue);
    final : S }.

Arguments result {A S} o.
Arguments sent {A S} o.
Arguments final {A S} o.

Definition Store (S : Type) : Type :=
  S -> string -> list JsValue -> (Exception + QueryResult) * S.

Fixpoint exec {A S : Type} (store : Store S) (m : Db A) (s : S)
  : Outcome A S :=
  match m with
  | Ret a => {| result := inr a; sent := []; final := s |}
  | Throw e => {| result := inl e; sent := []; final := s |}
  | Query text parameters k =>
      match store s text parameters with
      | (inl e, s') =>
          {| result := inl e; sent := [(text, parameters)]; final := s' |}
      | (inr r, s') =>
          let o := exec store (k r) s' in
          {| result := result o;
             sent := (text, parameters) :: sent o;
             final := final o |}
      end
  end.

(** The store, in state [s], answers the query without a row, or with at
    least one. *)
Definition answers_empty {S : Type} (store : Store S) (s : S)
  (text : string) (parameters : list JsValue) (s' : S) : Prop :=
  exists r, store s text parameters = (inr r, s') /\ rows r = [].

Definition answers_row {S : Type} (store : Store S) (s : S)
  (text : string) (parameters : list JsValue) (row : JsObject) (s' : S)
  : Prop :=
  exists r rest, store s text parameters = (inr r, s')
                 /\ rows r = row :: rest.

(** Every query an action can send, whatever the store answers, satisfies
    [P]. *)
Inductive sends_only (P : string -> list JsValue -> Prop) {A : Type}
  : Db A -> Prop :=
| sends_ret (a : A) : sends_only P (Ret a)
| sends_throw (e : Exception) : sends_only P (Throw e)
| sends_query (text : string) (parameters : list JsValue)
    (k : QueryResult -> Db A) :
    P text parameters ->
    (forall r, sends_only P (k r)) ->
    sends_only P (Query text parameters k).

(* ================================================================= *)
(** ** [helpers/sql.js] *)

Module Sql.

Record PartialUpdate : Type := { setCols : string; values : list JsValue }.

(** [jsToSql[colName] || colName], converted to text by the template
    literal.  The read goes through the prototype of [jsToSql]: an inherited
    member is an object, hence truthy, and is what [||] returns. *)
Definition column (jsToSql : JsObject) (colName : string) : string :=
  match read jsToSql colName with
  | Own v => ToString (Js.or v (JsStr colName))
  | Inherited text => text
  | Missing => ToString (Js.or JsUndefined (JsStr colName))
  end.

(** The body of the arrow function given to [keys.map]. *)
Definition assignment (jsToSql : JsObject) (colName : string) (idx : nat)
  : string :=
  dquote ++ column jsToSql colName ++ dquote ++ "=$" ++ Number_toString (idx + 1).

(** The local [cols]. *)
Definition cols (dataToUpdate jsToSql : JsObject) : list string :=
  mapi (assignment jsToSql) (Object_keys dataToUpdate).

Definition sqlForPartialUpdate (dataToUpdate jsToSql : JsObject)
  : Exception + PartialUpdate :=
  let keys := Object_keys dataToUpdate in
  if (List.length keys =? 0)%nat then inl (BadRequestError "No data")
  else
    inr {| setCols := join ", " (cols dataToUpdate jsToSql);
           values := Object_values dataToUpdate |}.

End Sql.

(* ================================================================= *)
(** ** The company model *)

Module Company.

Section FindAll.
Variable StringToNumber : string -> option Z.

(** The arrays [filters] and [parameters] once the three conditionals of
    [findAll] have run. *)
Definition findAll_filters (minEmployees maxEmployees name : JsValue)
  : list string * list JsValue :=
  let filters : list string := [] in
  let parameters : list JsValue := [] in
  let '(filters, parameters) :=
    if strict_neq minEmployees JsUndefined then
      let parameters := push parameters minEmployees in
      (push filters
         ("num_employees >= $" ++ Number_toString (List.length parameters)),
       parameters)
    else (filters, parameters) in
  let '(filters, parameters) :=
    if strict_neq maxEmployees JsUndefined then
      let parameters := push parameters maxEmployees in
      (push filters
         ("num_employees <= $" ++ Number_toString (List.length parameters)),
       parameters)
    else (filters, parameters) in
  if truthy name then
    let parameters := push parameters (JsStr ("%" ++ ToString name ++ "%")) in
    (push filters ("name ILIKE $" ++ Number_toString (List.length parameters)),
     parameters)
  else (filters, parameters).

Definition selectCompanies : string :=
  nl ++ "    SELECT handle, name, description, num_employees AS "
     ++ dquote ++ "numEmployees" ++ dquote ++ ", logo_url AS "
     ++ dquote ++ "logoUrl" ++ dquote
     ++ nl ++ "    FROM companies".

(** The final value of [baseQuery]. *)
Definition findAll_text (filters : list string) : string :=
  let baseQuery := selectCompanies in
  let baseQuery :=
    if (0 <? List.length filters)%nat
    then baseQuery ++ " WHERE " ++ join " AND " filters
    else baseQuery in
  baseQuery ++ " ORDER BY name".

(** [findAll(searchCriteria = {})]; [None] is the omitted argument. *)
Definition findAll (arg : option JsObject) : Db (list JsObject) :=
  let searchCriteria := match arg with Some o => o | None => [] end in
  let minEmployees := get searchCriteria "minEmployees" in
  let maxEmployees := get searchCriteria "maxEmployees" in
  let name := get searchCriteria "name" in
  if strict_neq minEmployees JsUndefined
     && strict_neq maxEmployees JsUndefined
     && gt StringToNumber minEmployees maxEmployees
  then
    Throw (BadRequestError "Minimum employees cannot exceed maximum employees")
  else
    let '(filters, parameters) :=
      findAll_filters minEmployees maxEmployees name in
    Query (findAll_text filters) parameters (fun result => Ret (rows result)).
End FindAll.


(** The texts of the two queries of [create]. *)
Definition create_check : string :=
  "SELECT handle" ++ nl ++ "           FROM companies" ++ nl
    ++ "           WHERE handle = $1".

Definition create_insert : string :=
  "INSERT INTO companies" ++ nl
    ++ "           (handle, name, description, num_employees, logo_url)"
    ++ nl ++ "           VALUES ($1, $2, $3, $4, $5)" ++ nl
    ++ "           RETURNING handle, name, description, num_employees AS "
    ++ dquote ++ "numEmployees" ++ dquote ++ ", logo_url AS " ++ dquote
    ++ "logoUrl" ++ dquote.

Definition create (data : JsObject) : Db (option JsObject) :=
  let handle := get data "handle" in
  let name := get data "name" in
  let description := get data "description" in
  let numEmployees := get data "numEmployees" in
  let logoUrl := get data "logoUrl" in
  Query create_check [handle]
    (fun duplicateCheck =>
       match first_row duplicateCheck with
       | Some _ =>
           Throw (BadRequestError ("Duplicate company: " ++ ToString handle))
       | None =>
           Query create_insert
             [handle; name; description; numEmployees; logoUrl]
             (fun result => Ret (first_row result))
       end).

(** The texts of the two queries of [get]. *)
Definition get_company : string :=
  "SELECT handle, name, description, num_employees AS " ++ dquote
    ++ "numEmployees" ++ dquote ++ ", logo_url AS " ++ dquote ++ "logoUrl"
    ++ dquote ++ nl ++ "     FROM companies" ++ nl
    ++ "     WHERE handle = $1".

Definition get_jobs : string :=
  "SELECT id, title, salary, equity" ++ nl ++ "     FROM jobs" ++ nl
    ++ "     WHERE company_handle = $1" ++ nl ++ "     ORDER BY id".

(** What [get] returns: the company row with the rows of its jobs under
    [jobs]. *)
Record CompanyWithJobs : Type := { company : JsObject; jobs : list JsObject }.

Definition get (handle : JsValue) : Db CompanyWithJobs :=
  Query get_company [handle]
    (fun companyData =>
       match first_row companyData with
       | None =>
           Throw (NotFoundError
                    ("Company with handle '" ++ ToString handle
                       ++ "' not found"))
       | Some company =>
           Query get_jobs [handle]
             (fun jobData =>
                Ret {| company := company; jobs := rows jobData |})
       end).

(** The text [querySql] of [update]. *)
Definition update_text (setCols handleVarIdx : string) : string :=
  "UPDATE companies " ++ nl ++ "                      SET " ++ setCols ++ " "
    ++ nl ++ "                      WHERE handle = " ++ handleVarIdx ++ " "
    ++ nl ++ "                      RETURNING handle, " ++ nl
    ++ "                                name, " ++ nl
    ++ "                                description, " ++ nl
    ++ "                                num_employees AS " ++ dquote
    ++ "numEmployees" ++ dquote ++ ", " ++ nl
    ++ "                                logo_url AS " ++ dquote ++ "logoUrl"
    ++ dquote.

(** The field map of [update]. *)
Definition jsToSql : JsObject :=
  [("numEmployees", JsStr "num_employees"); ("logoUrl", JsStr "logo_url")].

Definition update (handle : JsValue) (data : JsObject) : Db JsObject :=
  match Sql.sqlForPartialUpdate data jsToSql with
  | inl e => Throw e
  | inr r =>
      let handleVarIdx :=
        "$" ++ Number_toString (List.length (Sql.values r) + 1) in
      Query (update_text (Sql.setCols r) handleVarIdx)
        (Sql.values r ++ [handle])
        (fun result =>
           match first_row result with
           | Some company => Ret company
           | None => Throw (NotFoundError ("No company: " ++ ToString handle))
           end)
  end.

(** The text of the query of [remove]. *)
Definition remove_text : string :=
  "DELETE" ++ nl ++ "           FROM companies" ++ nl
    ++ "           WHERE handle = $1" ++ nl ++ "           RETURNING handle".

Definition remove (handle : JsValue) : Db unit :=
  Query remove_text [handle]
    (fun result =>
       match first_row result with
       | Some _ => Ret tt
       | None => Throw (NotFoundError ("No company: " ++ ToString handle))
       end).

End Company.

(* ================================================================= *)
(** ** The job model with filters ([findAll(filters)], [update]) *)

Module JobAlt.

(** The arrays [conditions] and [values] once the three conditionals of
    [findAll] have run. *)
Definition findAll_conditions (minSalary hasEquity title : JsValue)
  : list string * list JsValue :=
  let conditions : list string := [] in
  let values : list JsValue := [] in
  let '(conditions, values) :=
    if strict_neq minSalary JsUndefined then
      let values := push values minSalary in
      (push conditions ("salary >= $" ++ Number_toString (List.length values)),
       values)
    else (conditions, values) in
  let conditions :=
    if truthy hasEquity then push conditions "equity > 0" else conditions in
  if truthy title then
    let values := push values (JsStr ("%" ++ ToString title ++ "%")) in
    (push conditions ("title ILIKE $" ++ Number_toString (List.length values)),
     values)
  else (conditions, values).

Definition selectJobs : string :=
  nl ++ "      SELECT j.id, j.title, j.salary, j.equity, "
     ++ nl ++ "             j.company_handle AS " ++ dquote ++ "companyHandle"
     ++ dquote ++ ", "
     ++ nl ++ "             c.name AS " ++ dquote ++ "companyName" ++ dquote
     ++ nl ++ "      FROM jobs j"
     ++ nl ++ "      LEFT JOIN companies AS c ON c.handle = j.company_handle".

(** The final value of [query]. *)
Definition findAll_text (conditions : list string) : string :=
  let query := selectJobs in
  let query :=
    if negb (List.length conditions =? 0)%nat
    then query ++ " WHERE " ++ join " AND " conditions
    else query in
  query ++ " ORDER BY title".

(** [findAll(filters = {})]; [None] is the omitted argument. *)
Definition findAll (arg : option JsObject) : Db (list JsObject) :=
  let filters := match arg with Some o => o | None => [] end in
  let minSalary := get filters "minSalary" in
  let hasEquity := get filters "hasEquity" in
  let title := get filters "title" in
  let '(conditions, values) := findAll_conditions minSalary hasEquity title in
  Query (findAll_text conditions) values (fun result => Ret (rows result)).

(** The text of the UPDATE statement of [update]. *)
Definition update_text (setCols : string) (n : nat) : string :=
  nl ++ "      UPDATE jobs "
     ++ nl ++ "      SET " ++ setCols ++ " "
     ++ nl ++ "      WHERE id = $" ++ Number_toString (n + 1) ++ " "
     ++ nl ++ "      RETURNING id, title, salary, equity, "
     ++ nl ++ "                company_handle AS " ++ dquote ++ "companyHandle"
     ++ dquote.

Definition update (id : JsValue) (data : JsObject) : Db JsObject :=
  match Sql.sqlForPartialUpdate data [] with
  | inl e => Throw e
  | inr r =>
      Query (update_text (Sql.setCols r) (List.length (Sql.values r)))
        (Sql.values r ++ [id])
        (fun result =>
           match rows result with
           | job :: _ => Ret job
           | [] => Throw (NotFoundError ("No job: " ++ ToString id))
           end)
  end.


(** The text of the query of [create]. *)
Definition create_text : string :=
  "INSERT INTO jobs (title, salary, equity, company_handle)" ++ nl
    ++ "       VALUES ($1, $2, $3, $4)" ++ nl
    ++ "       RETURNING id, title, salary, equity, company_handle AS "
    ++ dquote ++ "companyHandle" ++ dquote.

Definition create (data : JsObject) : Db (option JsObject) :=
  let title := get data "title" in
  let salary := get data "salary" in
  let equity := get data "equity" in
  let companyHandle := get data "companyHandle" in
  Query create_text [title; salary; equity; companyHandle]
    (fun result => Ret (first_row result)).

(** The texts of the two queries of [get]. *)
Definition get_job : string :=
  "SELECT id, title, salary, equity, " ++ nl
    ++ "              company_handle AS " ++ dquote ++ "companyHandle"
    ++ dquote ++ nl ++ "       FROM jobs WHERE id = $1".

Definition get_company : string :=
  "SELECT handle, name, description, " ++ nl
    ++ "              num_employees AS " ++ dquote ++ "numEmployees"
    ++ dquote ++ ", " ++ nl ++ "              logo_url AS " ++ dquote
    ++ "logoUrl" ++ dquote ++ nl ++ "       FROM companies WHERE handle = $1".

(** What [get] returns: the job row without [companyHandle], and under
    [company] the first row of the second query ([None]: [undefined]). *)
Record JobWithCompany : Type :=
  { job : JsObject; company : option JsObject }.

Definition get (id : JsValue) : Db JobWithCompany :=
  Query get_job [id]
    (fun jobRes =>
       match first_row jobRes with
       | None => Throw (NotFoundError ("No job: " ++ ToString id))
       | Some job =>
           Query get_company [get job "companyHandle"]
             (fun companyRes =>
                Ret {| job := delete job "companyHandle";
                       company := first_row companyRes |})
       end).

(** The text of the query of [remove]. *)
Definition remove_text : string :=
  "DELETE FROM jobs WHERE id = $1 " ++ nl ++ "       RETURNING id".

Definition remove (id : JsValue) : Db unit :=
  Query remove_text [id]
    (fun result =>
       if negb (List.length (rows result) =? 0)%nat then Ret tt
       else Throw (NotFoundError ("No job: " ++ ToString id))).

End JobAlt.

(* ================================================================= *)
(** ** [models/job.js] *)

Module Job.

(** [searchAll] works on the object its caller passes, not on a copy: the
    objects live in a heap and the argument is a reference. *)
Definition Ref : Type := nat.
Definition Heap : Type := Ref -> JsObject.

Definition heap_set (h : Heap) (r : Ref) (o : JsObject) : Heap :=
  fun r' => if (r' =? r)%nat then o else h r'.

(** The query text of [searchAll] around [finalWhereClause]. *)
Definition searchAll_text (finalWhereClause : string) : string :=
  "SELECT id,"
    ++ nl ++ "              title,"
    ++ nl ++ "              salary,"
    ++ nl ++ "              equity,"
    ++ nl ++ "              company_handle AS " ++ dquote ++ "companyHandle"
    ++ dquote
    ++ nl ++ "       FROM jobs"
    ++ nl ++ "       WHERE " ++ finalWhereClause
    ++ nl ++ "       ORDER BY id".

(** [searchAll(fields)].  [helpers/sql.js] exports [sqlForPartialUpdate]
    only, so the [sqlForQuery] that [models/job.js] destructures from it is
    [undefined] and the call in the second branch throws a [TypeError]. *)
Definition searchAll (fields : Ref) (h : Heap)
  : Heap * Db (list JsObject) :=
  let equityClause :=
    if truthy (get (h fields) "hasEquity")
    then JsStr "equity > 0" else JsUndefined in
  let h := heap_set h fields (delete (h fields) "hasEquity") in
  if (List.length (Object_keys (h fields)) =? 0)%nat then
    let finalWhereClause := ToString (Js.or equityClause (JsStr "")) in
    let finalValues : list JsValue := [] in
    (h, Query (searchAll_text finalWhereClause) finalValues
          (fun jobsRes => Ret (rows jobsRes)))
  else
    (h, Throw (TypeError "sqlForQuery is not a function")).


(** The texts of the two queries of [create]. *)
Definition create_check : string :=
  "SELECT handle" ++ nl ++ "       FROM companies" ++ nl
    ++ "       WHERE handle = $1".

Definition create_insert : string :=
  "INSERT INTO jobs" ++ nl
    ++ "       (title, salary, equity, company_handle)" ++ nl
    ++ "       VALUES ($1, $2, $3, $4)" ++ nl
    ++ "       RETURNING id, title, salary, equity, company_handle AS "
    ++ dquote ++ "companyHandle" ++ dquote.

Definition create (data : JsObject) : Db (option JsObject) :=
  let title := get data "title" in
  let salary := get data "salary" in
  let equity := get data "equity" in
  let companyHandle := get data "companyHandle" in
  Query create_check [companyHandle]
    (fun handleCheck =>
       if (List.length (rows handleCheck) =? 0)%nat then
         Throw (BadRequestError
                  ("Company handle " ++ ToString companyHandle
                     ++ " not found."))
       else
         Query create_insert [title; salary; equity; companyHandle]
           (fun result => Ret (first_row result))).

(** The text of the query of [findAll]. *)
Definition findAll_text : string :=
  "SELECT id," ++ nl ++ "              title," ++ nl
    ++ "              salary," ++ nl ++ "              equity," ++ nl
    ++ "              company_handle AS " ++ dquote ++ "companyHandle"
    ++ dquote ++ nl ++ "       FROM jobs" ++ nl ++ "       ORDER BY id".

Definition findAll : Db (list JsObject) :=
  Query findAll_text [] (fun jobsRes => Ret (rows jobsRes)).

(** The text of the query of [get]. *)
Definition get_text : string :=
  "SELECT id," ++ nl ++ "              title," ++ nl
    ++ "              salary," ++ nl ++ "              equity," ++ nl
    ++ "              company_handle AS " ++ dquote ++ "companyHandle"
    ++ dquote ++ nl ++ "       FROM jobs" ++ nl ++ "       WHERE id = $1".

Definition get (id : JsValue) : Db JsObject :=
  Query get_text [id]
    (fun jobRes =>
       match first_row jobRes with
       | Some job => Ret job
       | None => Throw (NotFoundError ("No job found with ID: " ++ ToString id))
       end).

(** The text [querySql] of [update]. *)
Definition update_text (setCols idVarIdx : string) : string :=
  "UPDATE jobs " ++ nl ++ "                      SET " ++ setCols ++ " "
    ++ nl ++ "                      WHERE id = " ++ idVarIdx ++ " " ++ nl
    ++ "                      RETURNING id, title, salary, equity, company_handle AS "
    ++ dquote ++ "companyHandle" ++ dquote.

Definition update (id : JsValue) (data : JsObject) : Db JsObject :=
  match Sql.sqlForPartialUpdate data [] with
  | inl e => Throw e
  | inr r =>
      let idVarIdx :=
        "$" ++ Number_toString (List.length (Sql.values r) + 1) in
      Query (update_text (Sql.setCols r) idVarIdx) (Sql.values r ++ [id])
        (fun result =>
           match first_row result with
           | Some job => Ret job
           | None =>
               Throw (NotFoundError ("No job found with ID: " ++ ToString id))
           end)
  end.

(** The text of the query of [remove]. *)
Definition remove_text : string :=
  "DELETE" ++ nl ++ "       FROM jobs" ++ nl ++ "       WHERE id = $1" ++ nl
    ++ "       RETURNING id".

Definition remove (id : JsValue) : Db unit :=
  Query remove_text [id]
    (fun result =>
       match first_row result with
       | Some _ => Ret tt
       | None => Throw (NotFoundError ("No job found with ID: " ++ ToString id))
       end).

End Job.

(* ================================================================= *)
(** ** The user model *)

Module User.

Section Bcrypt.
(** [BCRYPT_WORK_FACTOR] of [config.js] and the two functions of the bcrypt
    library the model calls, taken as parameters; [inl] is a rejected
    promise. *)
Variable BCRYPT_WORK_FACTOR : JsValue.
Variable bcrypt_hash : JsValue -> JsValue -> Exception + JsValue.
Variable bcrypt_compare : JsValue -> JsValue -> Exception + JsValue.

(** The text of the query of [authenticate]. *)
Definition authenticate_text : string :=
  "SELECT u.username AS " ++ dquote ++ "username" ++ dquote ++ "," ++ nl
    ++ "                  password," ++ nl
    ++ "                  first_name AS " ++ dquote ++ "firstName" ++ dquote
    ++ "," ++ nl ++ "                  last_name AS " ++ dquote ++ "lastName"
    ++ dquote ++ "," ++ nl ++ "                  email," ++ nl
    ++ "                  is_admin AS " ++ dquote ++ "isAdmin" ++ dquote
    ++ "," ++ nl ++ "                  json_agg(job_id) AS " ++ dquote
    ++ "jobs" ++ dquote ++ nl ++ "        FROM users AS u " ++ nl
    ++ "          JOIN applications AS a ON (u.username = a.username)" ++ nl
    ++ "        WHERE u.username = $1" ++ nl ++ "        GROUP BY u.username".

(** [authenticate(username, password)].  The error of the last line is
    [UnauthorizedError] with the message [Invalid username/password], the
    same on every path that reaches it; the message is not kept. *)
Definition authenticate (username password : JsValue) : Db JsObject :=
  Query authenticate_text [username]
    (fun result =>
       match first_row result with
       | Some user =>
           match bcrypt_compare password (get user "password") with
           | inl e => Throw e
           | inr isValid =>
               if negb (strict_neq isValid (JsBool true))
               then Ret (delete user "password")
               else Throw UnauthorizedError
           end
       | None => Throw UnauthorizedError
       end).

(** The texts of the two queries of [register]. *)
Definition register_check : string :=
  "SELECT username" ++ nl ++ "           FROM users" ++ nl
    ++ "           WHERE username = $1".

Definition register_insert : string :=
  "INSERT INTO users" ++ nl ++ "           (username," ++ nl
    ++ "            password," ++ nl ++ "            first_name," ++ nl
    ++ "            last_name," ++ nl ++ "            email," ++ nl
    ++ "            is_admin)" ++ nl
    ++ "           VALUES ($1, $2, $3, $4, $5, $6)" ++ nl
    ++ "           RETURNING username, " ++ nl
    ++ "            first_name AS " ++ dquote ++ "firstName" ++ dquote
    ++ ", " ++ nl ++ "            last_name AS " ++ dquote ++ "lastName"
    ++ dquote ++ ", " ++ nl ++ "            email, " ++ nl
    ++ "            is_admin AS " ++ dquote ++ "isAdmin" ++ dquote.

Definition register (data : JsObject) : Db (option JsObject) :=
  let username := get data "username" in
  let password := get data "password" in
  let firstName := get data "firstName" in
  let lastName := get data "lastName" in
  let email := get data "email" in
  let isAdmin := get data "isAdmin" in
  Query register_check [username]
    (fun duplicateCheck =>
       match first_row duplicateCheck with
       | Some _ =>
           Throw (BadRequestError
                    ("Duplicate username: " ++ ToString username))
       | None =>
           match bcrypt_hash password BCRYPT_WORK_FACTOR with
           | inl e => Throw e
           | inr hashedPassword =>
               Query register_insert
                 [username; hashedPassword; firstName; lastName; email;
                  isAdmin]
                 (fun result => Ret (first_row result))
           end
       end).

(** The text of the query of [findAll]. *)
Definition findAll_text : string :=
  "SELECT u.username AS " ++ dquote ++ "username" ++ dquote ++ "," ++ nl
    ++ "              first_name AS " ++ dquote ++ "firstName" ++ dquote
    ++ "," ++ nl ++ "              last_name AS " ++ dquote ++ "lastName"
    ++ dquote ++ "," ++ nl ++ "              email," ++ nl
    ++ "              is_admin AS " ++ dquote ++ "isAdmin" ++ dquote ++ ","
    ++ nl ++ "              json_agg(job_id) AS jobs" ++ nl
    ++ "        FROM users AS u " ++ nl
    ++ "          LEFT JOIN applications AS a ON (u.username = a.username)"
    ++ nl ++ "        GROUP BY u.username" ++ nl
    ++ "        ORDER BY u.username".

Definition findAll : Db (list JsObject) :=
  Query findAll_text [] (fun result => Ret (rows result)).

(** The texts of the two queries of [get]. *)
Definition get_user : string :=
  "SELECT u.username AS " ++ dquote ++ "username" ++ dquote ++ "," ++ nl
    ++ "                  first_name AS " ++ dquote ++ "firstName" ++ dquote
    ++ "," ++ nl ++ "                  last_name AS " ++ dquote ++ "lastName"
    ++ dquote ++ "," ++ nl ++ "                  email," ++ nl
    ++ "                  is_admin AS " ++ dquote ++ "isAdmin" ++ dquote
    ++ nl ++ "          FROM users AS u " ++ nl
    ++ "          WHERE u.username = $1".

Definition get_jobs : string :=
  "SELECT a.job_id" ++ nl ++ "       FROM applications AS a" ++ nl
    ++ "       WHERE a.username = $1".

(** What [get] returns: the user row, and under [jobs] the [job_id] of each
    row of the second query. *)
Record UserWithJobs : Type := { user : JsObject; jobs : list JsValue }.

Definition get (username : JsValue) : Db UserWithJobs :=
  Query get_user [username]
    (fun userRes =>
       match first_row userRes with
       | None => Throw (NotFoundError ("No user: " ++ ToString username))
       | Some user =>
           Query get_jobs [username]
             (fun userJobsRes =>
                Ret {| user := user;
                       jobs := map (fun a => get a "job_id")
                                 (rows userJobsRes) |})
       end).

(** The text [querySql] of [update]. *)
Definition update_text (setCols usernameVarIdx : string) : string :=
  "UPDATE users " ++ nl ++ "                      SET " ++ setCols ++ " "
    ++ nl ++ "                      WHERE username = " ++ usernameVarIdx
    ++ " " ++ nl ++ "                      RETURNING username".

(** The field map of [update]. *)
Definition jsToSql : JsObject :=
  [("firstName", JsStr "first_name"); ("lastName", JsStr "last_name");
   ("isAdmin", JsStr "is_admin")].

(** The part of [update] that follows the hashing. *)
Definition update_query (username : JsValue) (data : JsObject)
  : Db UserWithJobs :=
  match Sql.sqlForPartialUpdate data jsToSql with
  | inl e => Throw e
  | inr r =>
      let usernameVarIdx :=
        "$" ++ Number_toString (List.length (Sql.values r) + 1) in
      Query (update_text (Sql.setCols r) usernameVarIdx)
        (Sql.values r ++ [username])
        (fun result =>
           match first_row result with
           | None => Throw (NotFoundError ("No user: " ++ ToString username))
           | Some _ => get username
           end)
  end.

(** [update(username, data)].  [data] is the caller's object and the
    hashed password is written into it: the first component is that object
    after the call. *)
Definition update (username : JsValue) (data : JsObject)
  : JsObject * Db UserWithJobs :=
  if truthy (Js.get data "password") then
    match bcrypt_hash (Js.get data "password") BCRYPT_WORK_FACTOR with
    | inl e => (data, Throw e)
    | inr hashed =>
        let data := set data "password" hashed in
        (data, update_query username data)
    end
  else (data, update_query username data).

(** The text of the query of [remove]. *)
Definition remove_text : string :=
  "DELETE" ++ nl ++ "           FROM users" ++ nl
    ++ "           WHERE username = $1" ++ nl
    ++ "           RETURNING username".

Definition remove (username : JsValue) : Db unit :=
  Query remove_text [username]
    (fun result =>
       match first_row result with
       | Some _ => Ret tt
       | None => Throw (NotFoundError ("No user: " ++ ToString username))
       end).

(** The texts of the three queries of [applyToJob]. *)
Definition apply_job_check : string :=
  "SELECT id FROM jobs WHERE id = $1".

Definition apply_user_check : string :=
  "SELECT username FROM users WHERE username = $1".

Definition apply_insert : string :=
  "INSERT INTO applications (job_id, username) VALUES ($1, $2)".

Definition applyToJob (username jobId : JsValue) : Db unit :=
  Query apply_job_check [jobId]
    (fun jobCheck =>
       match first_row jobCheck with
       | None =>
           Throw (NotFoundError ("No job with ID: " ++ ToString jobId))
       | Some _ =>
           Query apply_user_check [username]
             (fun userCheck =>
                match first_row userCheck with
                | None =>
                    Throw (NotFoundError
                             ("No user with username: "
                                ++ ToString username))
                | Some _ =>
                    Query apply_insert [jobId; username] (fun _ => Ret tt)
                end)
       end).

End Bcrypt.

End User.

(* ================================================================= *)
(** ** [middleware/auth.js] *)

Module Auth.

(** [req.params] and [res.locals.user]; a missing [user] is [None], a
    verified token payload is [Some] object. *)
Record Request : Type := { params : JsObject }.
Record Response : Type := { user : option JsObject }.

(** What the middleware hands to [next]: nothing, or an error. *)
Inductive Next : Type :=
| next
| next_err (e : Exception).

Definition ensureLoggedIn (req : Request) (res : Response) : Next :=
  match user res with
  | None => next_err UnauthorizedError
  | Some _ => next
  end.

Definition ensureAdmin (req : Request) (res : Response) : Next :=
  match user res with
  | None => next_err UnauthorizedError
  | Some u =>
      if negb (truthy (get u "isAdmin")) then next_err UnauthorizedError
      else next
  end.

Definition ensureAdminOrSelf (req : Request) (res : Response) : Next :=
  match user res with
  | None => next_err UnauthorizedError
  | Some u =>
      let username := get u "username" in
      let isAdmin := get u "isAdmin" in
      if negb (truthy isAdmin)
         && strict_neq username (get (params req) "username")
      then next_err ForbiddenError
      else next
  end.

(** [authenticateJWT(req, res, next)].  [headers] is [req.headers], [None]
    when the request has no such object; [SECRET_KEY] of [config.js] and
    [jwt.verify] are parameters, [None] being a token that [verify] throws
    on, and a payload being the object a token of this application
    carries.  Whatever is thrown inside the [try] is caught.  The result is
    [res] after the call and what [next] receives. *)
Section Jwt.
Variable SECRET_KEY : string.
Variable jwt_verify : string -> string -> option JsObject.

Definition authenticateJWT (headers : option JsObject) (res : Response)
  : Response * Next :=
  match headers with
  | None => (res, next)
  | Some headers =>
      let authHeader := get headers "authorization" in
      if truthy authHeader then
        match authHeader with
        | JsStr authHeader =>
            let token := trim (replace_bearer authHeader) in
            match jwt_verify token SECRET_KEY with
            | Some payload => ({| user := Some payload |}, next)
            | None => (res, next)
            end
        | _ => (res, next)
        end
      else (res, next)
  end.
End Jwt.

End Auth.

(* ================================================================= *)
(** ** Reading a query text back

    What the store sees in a text it is handed: quoted identifiers,
    positional placeholders [$n], and every other character. *)

Module Text.

Inductive Token : Type :=
| TIdent (name : string)      (* a quoted identifier, quotes removed *)
| TParam (n : nat)            (* the placeholder $n *)
| TChar (c : ascii)           (* any other character *)
| TOpen (name : string).      (* an identifier whose closing quote is missing *)

Inductive LexState : Type :=
| Plain
| Quoted (acc : string)
| Dollar
| Digits (n : nat).

Definition digit_of (c : ascii) : option nat :=
  let code := nat_of_ascii c in
  if (48 <=? code)%nat && (code <=? 57)%nat then Some (code - 48) else None.

(** The token a state leaves behind when something else begins. *)
Definition flush (st : LexState) : list Token :=
  match st with
  | Plain => []
  | Quoted acc => [TOpen acc]
  | Dollar => [TChar "$"]
  | Digits n => [TParam n]
  end.

Fixpoint lex (st : LexState) (s : string) : list Token :=
  match s with
  | EmptyString => flush st
  | String c s' =>
      match st with
      | Quoted acc =>
          if (c =? "034")%char then TIdent acc :: lex Plain s'
          else lex (Quoted (acc ++ String c EmptyString)) s'
      | _ =>
          match st, digit_of c with
          | Dollar, Some d => lex (Digits d) s'
          | Digits n, Some d => lex (Digits (10 * n + d)) s'
          | _, _ =>
              flush st ++
                (if (c =? "034")%char then lex (Quoted EmptyString) s'
                 else if (c =? "$")%char then lex Dollar s'
                 else TChar c :: lex Plain s')
          end
      end
  end.

Definition tokens (text : string) : list Token := lex Plain text.

Fixpoint params (ts : list Token) : list nat :=
  match ts with
  | [] => []
  | TParam n :: ts' => n :: params ts'
  | _ :: ts' => params ts'
  end.

(** The indices of the placeholders of a text, left to right. *)
Definition placeholders (text : string) : list nat := params (tokens text).

(** Does the character occur in the string? *)
Fixpoint mentions (c : ascii) (s : string) : bool :=
  match s with
  | EmptyString => false
  | String c' s' => (c' =? c)%char || mentions c s'
  end.

Definition quote_free (s : string) : bool := negb (mentions "034"%char s).

Fixpoint skip_blank (s : string) : string :=
  match s with
  | String c s' =>
      if (c =? " ")%char || (c =? "010")%char then skip_blank s' else s
  | EmptyString => EmptyString
  end.

(** What follows the first occurrence of a keyword. *)
Definition after_keyword (kw text : string) : option string :=
  match index 0 kw text with
  | Some i => Some (substring (i + String.length kw) (String.length text) text)
  | None => None
  end.

Definition has_where (text : string) : bool :=
  match index 0 "WHERE" text with Some _ => true | None => false end.

(** A WHERE keyword with no predicate after it: the text ends there or goes
    straight on to ORDER BY. *)
Definition where_without_predicate (text : string) : bool :=
  match after_keyword "WHERE" text with
  | None => false
  | Some rest =>
      let rest := skip_blank rest in
      (rest =? "") || prefix "ORDER BY" rest
  end.

End Text.

(* ================================================================= *)
(** ** The store's side of a partial update *)

Module Store.

Import Text.


(** The assignments of a SET clause: [ident = $n], separated by a comma and
    a space. *)
Fixpoint parse_assignments (ts : list Token) : option (list (string * nat)) :=
  match ts with
  | TIdent name :: TChar "="%char :: TParam n :: rest =>
      match rest with
      | [] => Some [(name, n)]
      | TChar ","%char :: TChar " "%char :: rest' =>
          option_map (cons (name, n)) (parse_assignments rest')
      | _ => None
      end
  | _ => None
  end.




End Store.

(* ================================================================= *)
(** ** The shape the specification gives to an assignment clause *)

Module Clause.

Import Text.

(** Is the key one of the object's own properties? *)
Definition present (o : JsObject) (key : string) : bool :=
  existsb (String.eqb key) (Object_keys o).

(** The column the code resolves a key to.  Where the field map has an
    entry of its own for the key: the mapped name when it is truthy, the key
    when it is falsy.  Where it has none: the text of the member of
    [Object.prototype] that bears the key's name, if there is one, and the
    key otherwise. *)
Definition resolved_column (fieldMap : JsObject) (key : string) : string :=
  if present fieldMap key then
    if truthy (get fieldMap key) then ToString (get fieldMap key) else key
  else
    match inherited key with
    | Some text => text
    | None => key
    end.


(** The token ["<column>"=$<i>]. *)
Definition assignment_token (p : string * nat) : string :=
  dquote ++ fst p ++ dquote ++ "=$" ++ Number_toString (snd p).

(** Columns paired with the indices 1, 2, ... in key order. *)
Definition numbered (columns : list string) : list (string * nat) :=
  combine columns (seq 1 (List.length columns)).

(** What the store reads in a clause of assignment tokens. *)
Fixpoint assignment_tokens (ps : list (string * nat)) : list Token :=
  match ps with
  | [] => []
  | [(c, i)] => [TIdent c; TChar "="%char; TParam i]
  | (c, i) :: ps' =>
      TIdent c :: TChar "="%char :: TParam i
        :: TChar ","%char :: TChar " "%char :: assignment_tokens ps'
  end.

(** The placeholders of a text are exactly [$1 ... $n], in this order, for
    a parameter list of length [n]. *)
Definition well_numbered (text : string) (parameters : list JsValue) : Prop :=
  placeholders text = seq 1 (List.length parameters).

(** Which optional filter is switched on by a value: [defined] for the
    filters tested with [!== undefined], [truthy] for the others. *)
Definition defined (v : JsValue) : bool := strict_neq v JsUndefined.

End Clause.

(** Every query sent in a run has exactly the placeholders [$1 ... $n] for
    its [n] parameters. *)
Definition all_numbered {A S : Type} (o : Outcome A S) : Prop :=
  Forall (fun q => Clause.well_numbered (fst q) (snd q)) (sent o).

(* ================================================================= *)
(** * Properties *)

(** ** Strings, digits and lists *)

Lemma append_nil_r (s : string) : s ++ "" = s.
Proof. induction s as [|c s IH]; simpl; [reflexivity | now rewrite IH]. Qed.

Lemma append_assoc (s t u : string) : (s ++ t) ++ u = s ++ (t ++ u).
Proof. induction s as [|c s IH]; simpl; [reflexivity | now rewrite IH]. Qed.

Lemma to_uint_nonnil (n : nat) : Nat.to_uint n <> Nil.
Proof.
  rewrite <- (DecimalNat.Unsigned.of_to n) at 1.
  rewrite DecimalNat.Unsigned.to_of.
  apply unorm_nonnil.
Qed.

Lemma mapi_from_length {A B : Type} (f : A -> nat -> B) (xs : list A) :
  forall i, List.length (mapi_from f i xs) = List.length xs.
Proof. induction xs as [|x xs IH]; intros i; simpl; [reflexivity | now rewrite IH]. Qed.

Lemma mapi_from_ext {A B : Type} (f g : A -> nat -> B) (xs : list A) :
  (forall x i, f x i = g x i) ->
  forall i, mapi_from f i xs = mapi_from g i xs.
Proof.
  intros H. induction xs as [|x xs IH]; intros i; simpl; [reflexivity|].
  now rewrite H, IH.
Qed.


Lemma mapi_from_numbered {A : Type} (g : A -> string) (xs : list A) :
  forall i,
    mapi_from (fun x idx => Clause.assignment_token (g x, idx + 1)) i xs
    = map Clause.assignment_token
        (combine (map g xs) (seq (S i) (List.length xs))).
Proof.
  induction xs as [|x xs IH]; intros i; simpl; [reflexivity|].
  rewrite IH. now rewrite Nat.add_1_r.
Qed.

(** ** What the lexer reads in an assignment clause *)

Section Lexing.
Import Text Clause.

Lemma lex_quoted (name : string) :
  forall acc rest,
    quote_free name = true ->
    lex (Quoted acc) (name ++ dquote ++ rest)
    = TIdent (acc ++ name) :: lex Plain rest.
Proof.
  unfold quote_free.
  induction name as [|c name IH]; intros acc rest H; simpl in *.
  - now rewrite append_nil_r.
  - rewrite negb_true_iff in H. apply orb_false_elim in H as [Hc Hn].
    rewrite Hc. rewrite IH by now rewrite Hn.
    now rewrite append_assoc.
Qed.

Lemma lex_digits (u : uint) :
  forall a rest,
    lex (Digits a) (NilEmpty.string_of_uint u ++ rest)
    = lex (Digits (Nat.of_uint_acc u a)) rest.
Proof.
  induction u; intros a rest; simpl; try reflexivity;
    rewrite IHu, Nat.tail_mul_spec;
    match goal with
    | |- lex (Digits (Nat.of_uint_acc u ?x)) _ = lex (Digits (Nat.of_uint_acc u ?y)) _ =>
        replace x with y by lia
    end; reflexivity.
Qed.

Lemma lex_dollar_digit (c : ascii) (d : nat) (s : string) :
  digit_of c = Some d -> lex Dollar (String c s) = lex (Digits d) s.
Proof. intros H. cbn [lex]. now rewrite H. Qed.

Lemma lex_number (n : nat) (rest : string) :
  lex Dollar (Number_toString n ++ rest) = lex (Digits n) rest.
Proof.
  unfold Number_toString.
  rewrite <- (DecimalNat.Unsigned.of_to n) at 2.
  pose proof (to_uint_nonnil n) as Hn.
  destruct (Nat.to_uint n) as [|u|u|u|u|u|u|u|u|u|u]; [congruence|..];
    cbn [NilEmpty.string_of_uint append];
    erewrite lex_dollar_digit by reflexivity;
    rewrite lex_digits; reflexivity.
Qed.
End Lexing.

Section ClauseTokens.
Import Text Clause.

Lemma lex_assignment_token (p : string * nat) (rest : string) :
  quote_free (fst p) = true ->
  lex Plain (assignment_token p ++ rest)
  = TIdent (fst p) :: TChar "="%char :: lex (Digits (snd p)) rest.
Proof.
  intros H. unfold assignment_token.
  rewrite !append_assoc.
  change (lex Plain (dquote ++ ?s)) with (lex (Quoted "") s).
  rewrite lex_quoted by assumption.
  cbn [append lex digit_of flush app Ascii.eqb Bool.eqb].
  now rewrite lex_number.
Qed.

Lemma tokens_clause (ps : list (string * nat)) :
  ps <> [] ->
  (forall p, In p ps -> quote_free (fst p) = true) ->
  tokens (join ", " (map assignment_token ps)) = assignment_tokens ps.
Proof.
  unfold tokens.
  induction ps as [|p ps IH]; intros Hne Hq; [congruence|].
  destruct ps as [|q ps].
  - cbn [map join]. rewrite <- (append_nil_r (assignment_token p)).
    rewrite lex_assignment_token by (apply Hq; now left).
    destruct p as [c i]. reflexivity.
  - change (join ", " (map assignment_token (p :: q :: ps)))
      with (assignment_token p ++ ", " ++ join ", " (map assignment_token (q :: ps))).
    rewrite lex_assignment_token by (apply Hq; now left).
    destruct p as [c i].
    cbn [append lex digit_of flush app Ascii.eqb Bool.eqb fst snd].
    rewrite IH; [reflexivity | discriminate |].
    intros p Hp. apply Hq. now right.
Qed.

Lemma params_assignment_tokens (ps : list (string * nat)) :
  params (assignment_tokens ps) = map snd ps.
Proof.
  induction ps as [|[c i] ps IH]; [reflexivity|].
  destruct ps as [|q ps]; [reflexivity|].
  cbn [assignment_tokens params map snd] in *. now rewrite IH.
Qed.

Lemma parse_assignment_tokens (ps : list (string * nat)) :
  ps <> [] ->
  Store.parse_assignments (assignment_tokens ps) = Some ps.
Proof.
  induction ps as [|[c i] ps IH]; intros Hne; [congruence|].
  destruct ps as [|q ps]; [reflexivity|].
  change (Store.parse_assignments (assignment_tokens ((c, i) :: q :: ps)))
    with (option_map (cons (c, i))
            (Store.parse_assignments (assignment_tokens (q :: ps)))).
  rewrite IH by discriminate. reflexivity.
Qed.

Lemma numbered_fst (columns : list string) :
  map fst (numbered columns) = columns.
Proof.
  unfold numbered. generalize 1.
  induction columns as [|c columns IH]; intros i; simpl; [reflexivity|].
  now rewrite IH.
Qed.

Lemma numbered_snd (columns : list string) :
  map snd (numbered columns) = seq 1 (List.length columns).
Proof.
  unfold numbered. generalize 1.
  induction columns as [|c columns IH]; intros i; simpl; [reflexivity|].
  now rewrite IH.
Qed.

Lemma numbered_nil (columns : list string) :
  numbered columns = [] -> columns = [].
Proof. destruct columns; [reflexivity | discriminate]. Qed.
End ClauseTokens.

(** ** [sqlForPartialUpdate] *)

Section PartialUpdate.
Import Text Clause.

(** An own property is one that [Object.keys] lists, and is what [get]
    reads. *)
Lemma assoc_present (o : JsObject) (k : string) :
  match assoc o k with
  | Some v => present o k = true /\ get o k = v
  | None => present o k = false
  end.
Proof.
  induction o as [|[k' v] o IH]; [reflexivity|].
  unfold present in *. cbn [assoc get Object_keys map fst existsb].
  rewrite (String.eqb_sym k k').
  destruct (k' =? k); [now split | exact IH].
Qed.

Lemma assoc_Forall {A : Type} (P : A -> Prop) (l : list (string * A))
  (k : string) (a : A) :
  Forall (fun p => P (snd p)) l -> assoc l k = Some a -> P a.
Proof.
  induction 1 as [|[k' x] l Hx _ IH]; simpl; [discriminate|].
  destruct (k' =? k); [|exact IH].
  intros E. injection E as <-. exact Hx.
Qed.

(** No member of [Object.prototype] has a double quote in its text. *)
Lemma inherited_quote_free (k text : string) :
  inherited k = Some text -> quote_free text = true.
Proof.
  apply (assoc_Forall (fun t => quote_free t = true)).
  unfold Object_prototype. repeat constructor.
Qed.

Lemma column_resolved (jsToSql : JsObject) (colName : string) :
  Sql.column jsToSql colName = resolved_column jsToSql colName.
Proof.
  unfold Sql.column, resolved_column, read, Js.or.
  pose proof (assoc_present jsToSql colName) as H.
  destruct (assoc jsToSql colName) as [v|].
  - destruct H as [-> ->]. now destruct (truthy v).
  - rewrite H. now destruct (inherited colName).
Qed.

Lemma cols_numbered (dataToUpdate jsToSql : JsObject) :
  Sql.cols dataToUpdate jsToSql
  = map assignment_token
      (numbered (map (resolved_column jsToSql) (Object_keys dataToUpdate))).
Proof.
  unfold Sql.cols, mapi, numbered.
  rewrite length_map.
  rewrite <- (mapi_from_numbered (resolved_column jsToSql)).
  apply mapi_from_ext. intros k idx.
  unfold Sql.assignment, assignment_token.
  now rewrite column_resolved.
Qed.

Lemma sqlForPartialUpdate_inr (dataToUpdate jsToSql : JsObject) :
  dataToUpdate <> [] ->
  Sql.sqlForPartialUpdate dataToUpdate jsToSql
  = inr {| Sql.setCols := join ", " (Sql.cols dataToUpdate jsToSql);
           Sql.values := Object_values dataToUpdate |}.
Proof.
  intros H. unfold Sql.sqlForPartialUpdate.
  destruct dataToUpdate; [congruence | reflexivity].
Qed.

Lemma sqlForPartialUpdate_inv (dataToUpdate jsToSql : JsObject)
  (r : Sql.PartialUpdate) :
  Sql.sqlForPartialUpdate dataToUpdate jsToSql = inr r ->
  dataToUpdate <> []
  /\ Sql.setCols r = join ", " (Sql.cols dataToUpdate jsToSql)
  /\ Sql.values r = Object_values dataToUpdate.
Proof.
  destruct dataToUpdate as [|kv o]; [discriminate|].
  intros H. rewrite sqlForPartialUpdate_inr in H by discriminate.
  injection H as <-. repeat split. discriminate.
Qed.

Lemma placeholders_setCols (dataToUpdate jsToSql : JsObject)
  (r : Sql.PartialUpdate) :
  (forall k, In k (Object_keys dataToUpdate) ->
             quote_free (resolved_column jsToSql k) = true) ->
  Sql.sqlForPartialUpdate dataToUpdate jsToSql = inr r ->
  well_numbered (Sql.setCols r) (Sql.values r).
Proof.
  intros Hq H. apply sqlForPartialUpdate_inv in H as (Hne & Hs & Hv).
  unfold well_numbered, placeholders.
  rewrite Hs, Hv, cols_numbered, tokens_clause.
  - rewrite params_assignment_tokens, numbered_snd.
    unfold Object_values, Object_keys. now rewrite !length_map.
  - intros E. apply numbered_nil, map_eq_nil, map_eq_nil in E. congruence.
  - intros p Hp. apply (in_map fst) in Hp. rewrite numbered_fst in Hp.
    apply in_map_iff in Hp as (k & <- & Hk). now apply Hq.
Qed.

Lemma setCols_by_keys (C C' jsToSql : JsObject) (r r' : Sql.PartialUpdate) :
  Object_keys C = Object_keys C' ->
  Sql.sqlForPartialUpdate C jsToSql = inr r ->
  Sql.sqlForPartialUpdate C' jsToSql = inr r' ->
  Sql.setCols r = Sql.setCols r'.
Proof.
  intros Hk H H'.
  apply sqlForPartialUpdate_inv in H as (_ & -> & _).
  apply sqlForPartialUpdate_inv in H' as (_ & -> & _).
  unfold Sql.cols. now rewrite Hk.
Qed.
End PartialUpdate.

(** ** The filter builders *)

Section Filters.
Import Text Clause.

Ltac by_flags :=
  unfold Company.findAll_filters, JobAlt.findAll_conditions, defined in *;
  repeat match goal with
    | |- context [strict_neq ?v JsUndefined] =>
        destruct (strict_neq v JsUndefined)
    | |- context [truthy ?v] => destruct (truthy v)
    end.

Lemma company_filters_well_numbered (minEmployees maxEmployees name : JsValue) :
  let '(filters, parameters) :=
    Company.findAll_filters minEmployees maxEmployees name in
  well_numbered (join " AND " filters) parameters
  /\ well_numbered (Company.findAll_text filters) parameters
  /\ parameters
     = ((if defined minEmployees then [minEmployees] else [])
          ++ (if defined maxEmployees then [maxEmployees] else [])
          ++ (if truthy name then [JsStr ("%" ++ ToString name ++ "%")]
              else []))%list.
Proof. by_flags; repeat split; reflexivity. Qed.

Lemma company_filters_by_flags (min max name min' max' name' : JsValue) :
  defined min = defined min' ->
  defined max = defined max' ->
  truthy name = truthy name' ->
  fst (Company.findAll_filters min max name)
  = fst (Company.findAll_filters min' max' name').
Proof.
  unfold Company.findAll_filters, defined. intros -> -> ->.
  destruct (strict_neq min' JsUndefined), (strict_neq max' JsUndefined),
    (truthy name'); reflexivity.
Qed.

Lemma job_conditions_well_numbered (minSalary hasEquity title : JsValue) :
  let '(conditions, values) :=
    JobAlt.findAll_conditions minSalary hasEquity title in
  well_numbered (join " AND " conditions) values
  /\ well_numbered (JobAlt.findAll_text conditions) values
  /\ values
     = ((if defined minSalary then [minSalary] else [])
          ++ (if truthy title then [JsStr ("%" ++ ToString title ++ "%")]
              else []))%list.
Proof. by_flags; repeat split; reflexivity. Qed.

Lemma job_conditions_by_flags (min eq title min' eq' title' : JsValue) :
  defined min = defined min' ->
  truthy eq = truthy eq' ->
  truthy title = truthy title' ->
  fst (JobAlt.findAll_conditions min eq title)
  = fst (JobAlt.findAll_conditions min' eq' title').
Proof.
  unfold JobAlt.findAll_conditions, defined. intros -> -> ->.
  destruct (strict_neq min' JsUndefined), (truthy eq'), (truthy title');
    reflexivity.
Qed.
End Filters.

(** ** Objects *)

Section Objects.

Lemma get_not_in (o : JsObject) (k : string) :
  ~ In k (Object_keys o) -> get o k = JsUndefined.
Proof.
  induction o as [|[k' v] o IH]; intros H; simpl in *; [reflexivity|].
  destruct (String.eqb_spec k' k) as [->|_]; [tauto|].
  apply IH. tauto.
Qed.

(** A property read does not depend on the order in which the properties
    were added. *)
Lemma get_Permutation (o o' : JsObject) (k : string) :
  Permutation o o' -> NoDup (Object_keys o) -> get o k = get o' k.
Proof.
  induction 1 as [|[k1 v1] o o' HP IH|[k1 v1] [k2 v2] o|o o' o'' HP1 IH1 HP2 IH2];
    intros ND; simpl in *.
  - reflexivity.
  - inversion ND; subst. now rewrite IH.
  - inversion ND as [|? ? Hin ND']; subst.
    destruct (String.eqb_spec k1 k) as [->|]; [|reflexivity].
    destruct (String.eqb_spec k2 k) as [->|]; [|reflexivity].
    exfalso. apply Hin. now left.
  - rewrite IH1 by assumption. apply IH2.
    unfold Object_keys in *.
    eapply Permutation_NoDup; [|exact ND]. now apply Permutation_map.
Qed.

Lemma delete_keys (o : JsObject) (k : string) :
  ~ In k (Object_keys (delete o k)).
Proof.
  unfold Object_keys, delete. intros H.
  apply in_map_iff in H as ([k' v] & E & H). simpl in E. subst k'.
  apply filter_In in H as [_ H]. simpl in H.
  now rewrite String.eqb_refl in H.
Qed.

Lemma get_delete_same (o : JsObject) (k : string) :
  get (delete o k) k = JsUndefined.
Proof. apply get_not_in, delete_keys. Qed.

Lemma get_delete_other (o : JsObject) (k k' : string) :
  k' <> k -> get (delete o k) k' = get o k'.
Proof.
  intros Hne. induction o as [|[k0 v] o IH]; simpl; [reflexivity|].
  destruct (String.eqb_spec k0 k) as [->|Hk0]; simpl.
  - destruct (String.eqb_spec k k') as [->|_]; [congruence | exact IH].
  - now rewrite IH.
Qed.
End Objects.

(** ** The store executing an assignment clause *)

Section StoreFacts.
Import Text Clause Store.






Lemma combine_keys_values (o : JsObject) :
  combine (Object_keys o) (Object_values o) = o.
Proof.
  induction o as [|[k v] o IH]; simpl; [reflexivity | now rewrite IH].
Qed.


End StoreFacts.

(* ================================================================= *)
(** * The claims of the specification *)

Section Claims.
  Import Text Clause Store Auth.

(** C1, as amended.  For every clause that [sqlForPartialUpdate] produces
    from column names without a double-quote character, and for every clause
    that the filter code of [Company.findAll] and of the filtering
    [Job.findAll] produces: the placeholders of the text are exactly
    [$1 ... $n], left to right, [n] being the length of the parameter list
    (the equity predicate adds neither a placeholder nor a parameter); and
    the text does not depend on the values supplied, which travel in the
    parameter list only: it is fixed by the keys of the change set (they are
    written into the text as quoted column names), and by which filters are
    switched on. *)
Theorem placeholders_numbered_from_one :
  (forall (C M : JsObject) (r : Sql.PartialUpdate),
      (forall k, In k (Object_keys C) ->
                 quote_free (resolved_column M k) = true) ->
      Sql.sqlForPartialUpdate C M = inr r ->
      well_numbered (Sql.setCols r) (Sql.values r))
  /\ (forall (C C' M : JsObject) (r r' : Sql.PartialUpdate),
      Object_keys C = Object_keys C' ->
      Sql.sqlForPartialUpdate C M = inr r ->
      Sql.sqlForPartialUpdate C' M = inr r' ->
      Sql.setCols r = Sql.setCols r')
  /\ (forall minEmployees maxEmployees name : JsValue,
      let '(filters, parameters) :=
        Company.findAll_filters minEmployees maxEmployees name in
      well_numbered (join " AND " filters) parameters
      /\ well_numbered (Company.findAll_text filters) parameters
      /\ parameters
         = ((if defined minEmployees then [minEmployees] else [])
              ++ (if defined maxEmployees then [maxEmployees] else [])
              ++ (if truthy name then [JsStr ("%" ++ ToString name ++ "%")]
                  else []))%list)
  /\ (forall min max name min' max' name' : JsValue,
      defined min = defined min' ->
      defined max = defined max' ->
      truthy name = truthy name' ->
      fst (Company.findAll_filters min max name)
      = fst (Company.findAll_filters min' max' name'))
  /\ (forall minSalary hasEquity title : JsValue,
      let '(conditions, values) :=
        JobAlt.findAll_conditions minSalary hasEquity title in
      well_numbered (join " AND " conditions) values
      /\ well_numbered (JobAlt.findAll_text conditions) values
      /\ values
         = ((if defined minSalary then [minSalary] else [])
              ++ (if truthy title then [JsStr ("%" ++ ToString title ++ "%")]
                  else []))%list)
  /\ (forall min eq title min' eq' title' : JsValue,
      defined min = defined min' ->
      truthy eq = truthy eq' ->
      truthy title = truthy title' ->
      fst (JobAlt.findAll_conditions min eq title)
      = fst (JobAlt.findAll_conditions min' eq' title')).
Proof.
  split; [exact placeholders_setCols|].
  split; [exact setCols_by_keys|].
  split; [exact company_filters_well_numbered|].
  split; [exact company_filters_by_flags|].
  split; [exact job_conditions_well_numbered | exact job_conditions_by_flags].
Qed.

Lemma placeholders_numbered_from_one_witness :
  let C := [("firstName", JsStr "Joe"); ("age", JsNum 27)] in
  let C' := [("firstName", JsStr "Ann"); ("age", JsNull)] in
  let M := [("firstName", JsStr "first_name")] in
  let r := {| Sql.setCols := dquote ++ "first_name" ++ dquote ++ "=$1, "
                             ++ dquote ++ "age" ++ dquote ++ "=$2";
              Sql.values := [JsStr "Joe"; JsNum 27] |} in
  let r' := {| Sql.setCols := Sql.setCols r;
               Sql.values := [JsStr "Ann"; JsNull] |} in
  (forall k, In k (Object_keys C) -> quote_free (resolved_column M k) = true)
  /\ Sql.sqlForPartialUpdate C M = inr r
  /\ well_numbered (Sql.setCols r) (Sql.values r)
  /\ Sql.setCols r = Sql.setCols r'
  /\ fst (Company.findAll_filters (JsNum 2) JsUndefined (JsStr "net"))
     = fst (Company.findAll_filters (JsNum 7) JsUndefined (JsStr "c"))
  /\ fst (JobAlt.findAll_conditions JsUndefined (JsBool true) (JsStr "eng"))
     = fst (JobAlt.findAll_conditions JsUndefined (JsNum 1) (JsStr "dev")).
Proof.
  intros C C' M r r'.
  assert (Hq : forall k, In k (Object_keys C) ->
                         quote_free (resolved_column M k) = true).
  { intros k [<-|[<-|[]]]; reflexivity. }
  split; [exact Hq|].
  split; [reflexivity|].
  split; [exact (proj1 placeholders_numbered_from_one C M r Hq eq_refl)|].
  destruct placeholders_numbered_from_one as (_ & Hkeys & _ & Hc & _ & Hj).
  split; [|split].
  - exact (Hkeys C C' M r r' eq_refl eq_refl eq_refl).
  - exact (Hc (JsNum 2) JsUndefined (JsStr "net")
              (JsNum 7) JsUndefined (JsStr "c") eq_refl eq_refl eq_refl).
  - exact (Hj JsUndefined (JsBool true) (JsStr "eng")
              JsUndefined (JsNum 1) (JsStr "dev") eq_refl eq_refl eq_refl).
Defined.

(** C1 as stated fails: a change-set key that contains a double quote
    closes the quoted column name early, and the text of the clause then
    holds the placeholders [$2], [$1] for a parameter list of length 1. *)
Lemma placeholders_broken_by_quoted_key :
  let C := [("x" ++ dquote ++ "=$2, " ++ dquote ++ "y", JsNum 1)] in
  exists r,
    Sql.sqlForPartialUpdate C [] = inr r
    /\ Sql.setCols r = dquote ++ "x" ++ dquote ++ "=$2, "
                       ++ dquote ++ "y" ++ dquote ++ "=$1"
    /\ Sql.values r = [JsNum 1]
    /\ placeholders (Sql.setCols r) = [2; 1]
    /\ ~ well_numbered (Sql.setCols r) (Sql.values r).
Proof.
  eexists. split; [reflexivity|]. repeat split. discriminate.
Qed.




(** C3.  For every field map, [sqlForPartialUpdate] called with an empty
    change set fails with [BadRequestError]; it returns no clause at all,
    and a caller such as [update] of the job model then fails with the same
    error without sending a query. *)
Theorem sqlForPartialUpdate_empty :
  forall M : JsObject,
    Sql.sqlForPartialUpdate [] M = inl (BadRequestError "No data")
    /\ (forall r, Sql.sqlForPartialUpdate [] M <> inr r)
    /\ (forall id answer,
          JobAlt.update id [] = Throw (BadRequestError "No data")
          /\ queries_sent answer (JobAlt.update id []) = []).
Proof.
  intros M. split; [reflexivity|]. split; [discriminate|].
  intros id answer. split; reflexivity.
Qed.




(** The filter builders that add WHERE only when a condition was collected:
    for a filter object with none of the declared names the clause and the
    parameter list are empty and the query has no WHERE. *)
Lemma findAll_without_filters :
  forall (StringToNumber : string -> option Z) (spec : JsObject),
    (forall k, In k ["minEmployees"; "maxEmployees"; "name";
                     "minSalary"; "hasEquity"; "title"] ->
               ~ In k (Object_keys spec)) ->
    Company.findAll StringToNumber (Some spec)
    = Query (Company.selectCompanies ++ " ORDER BY name") []
        (fun result => Ret (rows result))
    /\ JobAlt.findAll (Some spec)
       = Query (JobAlt.selectJobs ++ " ORDER BY title") []
           (fun result => Ret (rows result))
    /\ has_where (Company.selectCompanies ++ " ORDER BY name") = false
    /\ has_where (JobAlt.selectJobs ++ " ORDER BY title") = false.
Proof.
  intros stn spec H.
  unfold Company.findAll, JobAlt.findAll.
  rewrite !get_not_in by (apply H; simpl; tauto).
  repeat split.
Qed.

(** C4, where the code departs from it.  [Job.searchAll] on an empty filter
    object sends, with an empty parameter list, a query that has a WHERE
    with no predicate between it and ORDER BY. *)
Theorem searchAll_empty_where :
  snd (Job.searchAll 0 (fun _ => []))
  = Query (Job.searchAll_text "") [] (fun jobsRes => Ret (rows jobsRes))
  /\ has_where (Job.searchAll_text "") = true
  /\ where_without_predicate (Job.searchAll_text "") = true.
Proof. repeat split. Qed.

(** On a filter object that holds a name other than [hasEquity],
    [Job.searchAll] reaches the call of [sqlForQuery] and throws. *)
Lemma searchAll_other_filter :
  snd (Job.searchAll 0 (fun _ => [("location", JsStr "x")]))
  = Throw (TypeError "sqlForQuery is not a function").
Proof. reflexivity. Qed.

(** C5.  When the filter object of [Company.findAll] supplies both
    [minEmployees] and [maxEmployees] and the minimum is greater than the
    maximum, [findAll] throws [BadRequestError]: no text is built and no
    query is sent.  This holds for the comparison [>] the code applies to
    whatever two values are supplied, and so for any two numbers with the
    minimum strictly greater. *)
Theorem findAll_rejects_inverted_range :
  forall (StringToNumber : string -> option Z) (searchCriteria : JsObject)
         (answer : string -> list JsValue -> QueryResult),
    let minEmployees := get searchCriteria "minEmployees" in
    let maxEmployees := get searchCriteria "maxEmployees" in
    let rejected :=
      Company.findAll StringToNumber (Some searchCriteria)
      = Throw (BadRequestError
                 "Minimum employees cannot exceed maximum employees")
      /\ queries_sent answer
           (Company.findAll StringToNumber (Some searchCriteria)) = [] in
    (defined minEmployees = true ->
     defined maxEmployees = true ->
     gt StringToNumber minEmployees maxEmployees = true ->
     rejected)
    /\ (forall lo hi : Z,
          minEmployees = JsNum lo ->
          maxEmployees = JsNum hi ->
          (hi < lo)%Z ->
          rejected).
Proof.
  intros stn c answer minEmployees maxEmployees rejected.
  assert (G : defined minEmployees = true ->
              defined maxEmployees = true ->
              gt stn minEmployees maxEmployees = true ->
              rejected).
  { intros Hlo Hhi Hgt.
    assert (E : Company.findAll stn (Some c)
                = Throw (BadRequestError
                           "Minimum employees cannot exceed maximum employees")).
    { unfold Company.findAll. fold minEmployees maxEmployees.
      unfold defined in Hlo, Hhi. now rewrite Hlo, Hhi, Hgt. }
    split; [exact E | now rewrite E]. }
  split; [exact G|].
  intros lo hi Hlo Hhi Hlt. apply G; rewrite ?Hlo, ?Hhi; try reflexivity.
  simpl. now apply Z.ltb_lt.
Qed.

Lemma findAll_rejects_inverted_range_witness :
  let c := [("minEmployees", JsNum 2); ("maxEmployees", JsNum 1)] in
  get c "minEmployees" = JsNum 2
  /\ get c "maxEmployees" = JsNum 1
  /\ (1 < 2)%Z
  /\ Company.findAll (fun _ => None) (Some c)
     = Throw (BadRequestError
                "Minimum employees cannot exceed maximum employees")
  /\ queries_sent (fun _ _ => {| rows := [] |})
       (Company.findAll (fun _ => None) (Some c)) = [].
Proof.
  intros c. split; [reflexivity|]. split; [reflexivity|].
  split; [reflexivity|].
  exact (proj2 (findAll_rejects_inverted_range (fun _ => None) c
                  (fun _ _ => {| rows := [] |}))
           2%Z 1%Z eq_refl eq_refl eq_refl).
Defined.

(** C6.  Two filter objects with the same properties, added in different
    orders, make [Company.findAll] and the filtering [Job.findAll] do the
    same thing: the same query text and the same ordered parameter list (or
    the same error). *)
Theorem findAll_insertion_order :
  forall (StringToNumber : string -> option Z) (spec spec' : JsObject),
    NoDup (Object_keys spec) ->
    Permutation spec spec' ->
    Company.findAll StringToNumber (Some spec)
    = Company.findAll StringToNumber (Some spec')
    /\ JobAlt.findAll (Some spec) = JobAlt.findAll (Some spec')
    /\ (defined (get spec "minEmployees") = true ->
        defined (get spec "maxEmployees") = true ->
        truthy (get spec "name") = true ->
        fst (Company.findAll_filters (get spec "minEmployees")
               (get spec "maxEmployees") (get spec "name"))
        = ["num_employees >= $1"; "num_employees <= $2"; "name ILIKE $3"])
    /\ (defined (get spec "minSalary") = true ->
        truthy (get spec "hasEquity") = true ->
        truthy (get spec "title") = true ->
        fst (JobAlt.findAll_conditions (get spec "minSalary")
               (get spec "hasEquity") (get spec "title"))
        = ["salary >= $1"; "equity > 0"; "title ILIKE $2"]).
Proof.
  intros stn spec spec' ND HP.
  unfold Company.findAll, JobAlt.findAll.
  rewrite !(get_Permutation spec spec') by assumption.
  split; [reflexivity|]. split; [reflexivity|].
  unfold Company.findAll_filters, JobAlt.findAll_conditions, defined.
  split; intros -> -> ->; reflexivity.
Qed.

Lemma findAll_insertion_order_witness :
  let spec := [("name", JsStr "net"); ("minEmployees", JsNum 3);
               ("maxEmployees", JsNum 9); ("minSalary", JsNum 100);
               ("hasEquity", JsBool true); ("title", JsStr "eng")] in
  let spec' := [("title", JsStr "eng"); ("hasEquity", JsBool true);
                ("minSalary", JsNum 100); ("maxEmployees", JsNum 9);
                ("minEmployees", JsNum 3); ("name", JsStr "net")] in
  NoDup (Object_keys spec)
  /\ Permutation spec spec'
  /\ Company.findAll (fun _ => None) (Some spec)
     = Company.findAll (fun _ => None) (Some spec')
  /\ JobAlt.findAll (Some spec) = JobAlt.findAll (Some spec')
  /\ fst (Company.findAll_filters (get spec "minEmployees")
            (get spec "maxEmployees") (get spec "name"))
     = ["num_employees >= $1"; "num_employees <= $2"; "name ILIKE $3"]
  /\ fst (JobAlt.findAll_conditions (get spec "minSalary")
            (get spec "hasEquity") (get spec "title"))
     = ["salary >= $1"; "equity > 0"; "title ILIKE $2"].
Proof.
  intros spec spec'.
  assert (ND : NoDup (Object_keys spec)).
  { repeat constructor; simpl; intuition discriminate. }
  assert (HP : Permutation spec spec').
  { unfold spec, spec'.
    apply (Permutation_rev
             [("name", JsStr "net"); ("minEmployees", JsNum 3);
              ("maxEmployees", JsNum 9); ("minSalary", JsNum 100);
              ("hasEquity", JsBool true); ("title", JsStr "eng")]). }
  split; [exact ND|]. split; [exact HP|].
  destruct (findAll_insertion_order (fun _ => None) spec spec' ND HP)
    as (Hc & Hj & Hco & Hjo).
  split; [exact Hc|]. split; [exact Hj|].
  split; [exact (Hco eq_refl eq_refl eq_refl)
         | exact (Hjo eq_refl eq_refl eq_refl)].
Defined.

(** C7, as amended.  A caller without a valid claim gets
    [UnauthorizedError] from both gates.  A caller with a valid claim that
    is not an admin gets [UnauthorizedError] from [ensureAdmin]; from
    [ensureAdminOrSelf] such a caller gets [ForbiddenError] when the claim's
    username is not the targeted one, and passes when it is. *)
Theorem gate_signals :
  forall (req : Request) (res : Response),
    (user res = None ->
     ensureAdmin req res = next_err UnauthorizedError
     /\ ensureAdminOrSelf req res = next_err UnauthorizedError)
    /\ (forall u,
          user res = Some u ->
          truthy (get u "isAdmin") = false ->
          ensureAdmin req res = next_err UnauthorizedError
          /\ (strict_neq (get u "username") (get (params req) "username")
               = true ->
              ensureAdminOrSelf req res = next_err ForbiddenError)
          /\ (strict_neq (get u "username") (get (params req) "username")
               = false ->
              ensureAdminOrSelf req res = next)).
Proof.
  intros req res. unfold ensureAdmin, ensureAdminOrSelf. split.
  - intros ->. split; reflexivity.
  - intros u -> Hadmin. rewrite Hadmin. simpl.
    split; [reflexivity|]. split; intros ->; reflexivity.
Qed.

Lemma gate_signals_witness :
  let req := {| params := [("username", JsStr "wrong")] |} in
  let u := [("username", JsStr "test"); ("isAdmin", JsBool false)] in
  let res := {| user := Some u |} in
  user res = Some u
  /\ truthy (get u "isAdmin") = false
  /\ strict_neq (get u "username") (get (params req) "username") = true
  /\ ensureAdmin req res = next_err UnauthorizedError
  /\ ensureAdminOrSelf req res = next_err ForbiddenError.
Proof.
  intros req u res.
  destruct (proj2 (gate_signals req res) u eq_refl eq_refl) as (Ha & Hf & _).
  split; [reflexivity|]. split; [reflexivity|]. split; [reflexivity|].
  split; [exact Ha | exact (Hf eq_refl)].
Defined.

(** C7 as stated fails: for the claim of user test, who is no admin, and
    the targeted user wrong, the two gates do not give one and the same
    signal: [ensureAdmin] gives [UnauthorizedError], [ensureAdminOrSelf]
    gives [ForbiddenError]. *)
Lemma gates_signal_differently :
  let req := {| params := [("username", JsStr "wrong")] |} in
  let res := {| user := Some [("username", JsStr "test");
                              ("isAdmin", JsBool false)] |} in
  ensureAdmin req res = next_err UnauthorizedError
  /\ ensureAdminOrSelf req res = next_err ForbiddenError
  /\ ~ (exists e, ensureAdmin req res = next_err e
                  /\ ensureAdminOrSelf req res = next_err e).
Proof.
  intros req res.
  split; [reflexivity|]. split; [reflexivity|].
  intros (e & H1 & H2).
  change (ensureAdmin req res) with (next_err UnauthorizedError) in H1.
  change (ensureAdminOrSelf req res) with (next_err ForbiddenError) in H2.
  congruence.
Qed.

(** C9.  [Job.searchAll] works on the caller's object: whatever the object
    holds and whether the call goes on to send its query or throws, after
    the call the object at the caller's reference is the old one without
    [hasEquity]; its other properties and all other objects are as
    before. *)
Theorem searchAll_deletes_hasEquity :
  forall (fields : Job.Ref) (h : Job.Heap),
    let h' := fst (Job.searchAll fields h) in
    h' fields = delete (h fields) "hasEquity"
    /\ ~ In "hasEquity" (Object_keys (h' fields))
    /\ get (h' fields) "hasEquity" = JsUndefined
    /\ (forall k, k <> "hasEquity" -> get (h' fields) k = get (h fields) k)
    /\ (forall other, other <> fields -> h' other = h other).
Proof.
  intros fields h h'.
  assert (E : h' = Job.heap_set h fields (delete (h fields) "hasEquity")).
  { unfold h', Job.searchAll.
    now destruct (List.length _ =? 0)%nat. }
  assert (F : h' fields = delete (h fields) "hasEquity").
  { rewrite E. unfold Job.heap_set. now rewrite Nat.eqb_refl. }
  split; [exact F|]. rewrite F.
  split; [apply delete_keys|].
  split; [apply get_delete_same|].
  split; [intros k Hk; now apply get_delete_other|].
  intros other Hne. rewrite E. unfold Job.heap_set.
  apply Nat.eqb_neq in Hne. now rewrite Hne.
Qed.

Lemma searchAll_deletes_hasEquity_witness :
  let h : Job.Heap :=
    fun r => if (r =? 0)%nat
             then [("hasEquity", JsBool true); ("title", JsStr "eng")]
             else [("hasEquity", JsBool false)] in
  let h' := fst (Job.searchAll 0 h) in
  h' 0 = [("title", JsStr "eng")]
  /\ snd (Job.searchAll 0 h) = Throw (TypeError "sqlForQuery is not a function")
  /\ get (h' 0) "title" = get (h 0) "title"
  /\ h' 1 = h 1
  /\ fst (Job.searchAll 1 h) 1 = []
  /\ snd (Job.searchAll 1 h)
     = Query (Job.searchAll_text "") [] (fun jobsRes => Ret (rows jobsRes)).
Proof.
  intros h h'.
  destruct (searchAll_deletes_hasEquity 0 h) as (Hd & _ & _ & Hk & Ho).
  destruct (searchAll_deletes_hasEquity 1 h) as (Hd1 & _).
  split; [exact Hd|]. split; [reflexivity|].
  split; [apply Hk; discriminate|].
  split; [apply Ho; discriminate|].
  split; [exact Hd1 | reflexivity].
Defined.





End Claims.

(* ================================================================= *)
(** * Further properties of the code *)

(** ** The authorization gate *)

Section Gates.
Import Auth.

(** X1.  The gates are nested: whoever [ensureAdmin] lets through,
    [ensureAdminOrSelf] lets through for every target, and whoever
    [ensureAdminOrSelf] lets through, [ensureLoggedIn] lets through. *)
Theorem gates_nest :
  forall (req req' : Request) (res : Response),
    (ensureAdmin req res = next -> ensureAdminOrSelf req' res = next)
    /\ (ensureAdminOrSelf req res = next -> ensureLoggedIn req' res = next).
Proof.
  intros req req' res.
  unfold ensureAdmin, ensureAdminOrSelf, ensureLoggedIn.
  destruct (user res) as [u|]; [|split; discriminate].
  split; [|reflexivity].
  destruct (truthy (get u "isAdmin")); [reflexivity | discriminate].
Qed.

Lemma gates_nest_witness :
  let req := {| params := [] |} in
  let req' := {| params := [("username", JsStr "u1")] |} in
  let res := {| user := Some [("username", JsStr "admin");
                              ("isAdmin", JsBool true)] |} in
  ensureAdmin req res = next
  /\ ensureAdminOrSelf req' res = next
  /\ ensureLoggedIn req res = next.
Proof.
  intros req req' res.
  destruct (gates_nest req req' res) as [H1 _].
  destruct (gates_nest req' req res) as [_ H2].
  split; [reflexivity|]. split; [exact (H1 eq_refl) | exact (H2 (H1 eq_refl))].
Defined.

(** X2.  [ensureAdminOrSelf] lets a request through exactly when there is
    a user whose [isAdmin] is truthy or whose [username] is strictly equal
    to the [username] parameter of the route; every other request gets
    [UnauthorizedError] (no user) or [ForbiddenError]. *)
Theorem ensureAdminOrSelf_passes_iff :
  forall (req : Request) (res : Response),
    (ensureAdminOrSelf req res = next
     <-> exists u,
           user res = Some u
           /\ (truthy (get u "isAdmin") = true
               \/ JsValue_eqb (get u "username") (get (params req) "username")
                  = true))
    /\ (ensureAdminOrSelf req res = next
        \/ ensureAdminOrSelf req res = next_err UnauthorizedError
        \/ ensureAdminOrSelf req res = next_err ForbiddenError).
Proof.
  intros req res. unfold ensureAdminOrSelf, strict_neq.
  destruct (user res) as [u|].
  - destruct (truthy (get u "isAdmin")) eqn:Ha;
      destruct (JsValue_eqb (get u "username") (get (params req) "username"))
        eqn:Hu; simpl; split; try tauto.
    + split; [exists u; tauto | reflexivity].
    + split; [exists u; tauto | reflexivity].
    + split; [exists u; tauto | reflexivity].
    + split; [discriminate|].
      intros (u' & E & [H|H]); injection E as <-; congruence.
  - split; [|tauto]. split; [discriminate|]. intros (u & E & _). discriminate.
Qed.

Lemma ensureAdminOrSelf_passes_iff_witness :
  let req := {| params := [("username", JsStr "u1")] |} in
  let u := [("username", JsStr "u1"); ("isAdmin", JsBool false)] in
  let res := {| user := Some u |} in
  (exists u', user res = Some u'
              /\ (truthy (get u' "isAdmin") = true
                  \/ JsValue_eqb (get u' "username")
                       (get (params req) "username") = true))
  /\ ensureAdminOrSelf req res = next.
Proof.
  intros req u res.
  assert (H : exists u', user res = Some u'
                         /\ (truthy (get u' "isAdmin") = true
                             \/ JsValue_eqb (get u' "username")
                                  (get (params req) "username") = true)).
  { exists u. split; [reflexivity | right; reflexivity]. }
  split; [exact H|].
  exact (proj2 (proj1 (ensureAdminOrSelf_passes_iff req res)) H).
Defined.

(** The two ways [authenticateJWT] can end. *)
Lemma authenticateJWT_cases :
  forall (SECRET_KEY : string) (jwt_verify : string -> string -> option JsObject)
         (headers : option JsObject) (res : Response),
    let out := authenticateJWT SECRET_KEY jwt_verify headers res in
    snd out = next
    /\ (fst out = res
        \/ exists hs s payload,
             headers = Some hs
             /\ get hs "authorization" = JsStr s
             /\ jwt_verify (trim (replace_bearer s)) SECRET_KEY = Some payload
             /\ fst out = {| user := Some payload |}).
Proof.
  intros K verify headers res. unfold authenticateJWT.
  destruct headers as [hs|]; [|split; [reflexivity | now left]].
  destruct (get hs "authorization") as [| |b|z|s] eqn:E; simpl;
    try (split; [reflexivity | now left]).
  - destruct b; split; try reflexivity; now left.
  - destruct (negb (z =? 0)%Z); split; try reflexivity; now left.
  - destruct (negb (s =? "")); [|split; [reflexivity | now left]].
    destruct (verify (trim (replace_bearer s)) K) as [payload|] eqn:V;
      [|split; [reflexivity | now left]].
    split; [reflexivity|]. right. exists hs, s, payload. repeat split; assumption.
Qed.

(** X3.  [authenticateJWT] never hands an error to [next].  When the
    authorization header is a non-empty string whose token, after the
    scheme word is removed and the rest is trimmed, verifies, the user of
    [res] after the call is the payload of that token; in every other case
    (no headers, no such header, a header that is empty or not a string, a
    token that does not verify) [res] is left as it was. *)
Theorem authenticateJWT_never_fails :
  forall (SECRET_KEY : string) (jwt_verify : string -> string -> option JsObject)
         (headers : option JsObject) (res : Response),
    let out := authenticateJWT SECRET_KEY jwt_verify headers res in
    snd out = next
    /\ (forall hs s payload,
          headers = Some hs ->
          get hs "authorization" = JsStr s ->
          s <> "" ->
          jwt_verify (trim (replace_bearer s)) SECRET_KEY = Some payload ->
          fst out = {| user := Some payload |})
    /\ ((forall hs s,
           headers = Some hs ->
           get hs "authorization" = JsStr s ->
           s <> "" ->
           jwt_verify (trim (replace_bearer s)) SECRET_KEY = None) ->
        fst out = res).
Proof.
  intros K verify headers res out.
  split; [apply authenticateJWT_cases|]. split.
  - intros hs s payload -> Hg Hne Hv. unfold out, authenticateJWT.
    rewrite Hg. cbn [truthy]. apply String.eqb_neq in Hne. rewrite Hne.
    cbn [negb]. now rewrite Hv.
  - intros Hfail.
    destruct (authenticateJWT_cases K verify headers res)
      as [_ [E|(hs & s & payload & Hh & Hg & Hv & _)]]; [exact E|].
    destruct (String.eqb_spec s "") as [->|Hne].
    + unfold out, authenticateJWT. rewrite Hh, Hg. reflexivity.
    + rewrite (Hfail hs s Hh Hg Hne) in Hv. discriminate.
Qed.

Lemma authenticateJWT_never_fails_witness :
  let verify (token key : string) :=
    if (token =? "abc.def")%string
    then Some [("username", JsStr "u1"); ("isAdmin", JsBool false)]
    else None in
  let res := {| user := None |} in
  let good := Some [("authorization", JsStr "Bearer abc.def ")] in
  let bad := Some [("authorization", JsStr "Bearer forged")] in
  fst (authenticateJWT "k" verify good res)
  = {| user := Some [("username", JsStr "u1"); ("isAdmin", JsBool false)] |}
  /\ fst (authenticateJWT "k" verify bad res) = res
  /\ snd (authenticateJWT "k" verify bad res) = next.
Proof.
  intros verify res good bad.
  destruct (authenticateJWT_never_fails "k" verify good res) as (_ & Hset & _).
  destruct (authenticateJWT_never_fails "k" verify bad res) as (Hn & _ & Hkeep).
  split; [|split; [|exact Hn]].
  - apply (Hset [("authorization", JsStr "Bearer abc.def ")]
                "Bearer abc.def " _ eq_refl eq_refl);
      [discriminate | reflexivity].
  - apply Hkeep. intros hs s E Hg _. injection E as <-.
    cbn in Hg. injection Hg as <-. reflexivity.
Defined.

(** X4.  The scheme word is recognised as [Bearer ] and as [bearer ]: a
    header made of either word and a token gives what the bare token
    gives, provided the token does not itself begin with a scheme word. *)
Theorem authenticateJWT_scheme :
  forall (SECRET_KEY : string) (jwt_verify : string -> string -> option JsObject)
         (token : string) (res : Response),
    token <> "" ->
    replace_bearer token = token ->
    let run authHeader :=
      authenticateJWT SECRET_KEY jwt_verify
        (Some [("authorization", JsStr authHeader)]) res in
    run ("Bearer " ++ token) = run token
    /\ run ("bearer " ++ token) = run token.
Proof.
  intros K verify token res Hne Hb run. unfold run, authenticateJWT.
  cbn [get String.eqb Ascii.eqb Bool.eqb truthy append].
  assert (Ht : negb (token =? "") = true).
  { apply negb_true_iff, String.eqb_neq. exact Hne. }
  rewrite Ht. rewrite Hb. split; reflexivity.
Qed.

Lemma authenticateJWT_scheme_witness :
  let verify (token key : string) :=
    if (token =? "abc.def")%string then Some [("username", JsStr "u1")]
    else None in
  let res := {| user := None |} in
  "abc.def" <> ""
  /\ replace_bearer "abc.def" = "abc.def"
  /\ authenticateJWT "k" verify
       (Some [("authorization", JsStr "Bearer abc.def")]) res
     = ({| user := Some [("username", JsStr "u1")] |}, next)
  /\ authenticateJWT "k" verify
       (Some [("authorization", JsStr "bearer abc.def")]) res
     = authenticateJWT "k" verify
         (Some [("authorization", JsStr "abc.def")]) res.
Proof.
  intros verify res.
  assert (Hne : "abc.def" <> "") by discriminate.
  destruct (authenticateJWT_scheme "k" verify "abc.def" res Hne eq_refl)
    as [H1 H2].
  split; [exact Hne|]. split; [reflexivity|].
  split; [reflexivity | exact H2].
Defined.

(** X5.  The gates after [authenticateJWT], for a request that arrives with
    no user: when the header is missing, empty, not a string, or its token
    does not verify, all three gates answer [UnauthorizedError]; when the
    token verifies, [ensureLoggedIn] lets the request through, and so do
    the other two if the payload's [isAdmin] is truthy. *)
Theorem gates_after_authenticateJWT :
  forall (SECRET_KEY : string) (jwt_verify : string -> string -> option JsObject)
         (headers : option JsObject) (req : Request),
    let res := fst (authenticateJWT SECRET_KEY jwt_verify headers
                      {| user := None |}) in
    ((forall hs s,
         headers = Some hs ->
         get hs "authorization" = JsStr s ->
         s <> "" ->
         jwt_verify (trim (replace_bearer s)) SECRET_KEY = None) ->
     ensureLoggedIn req res = next_err UnauthorizedError
     /\ ensureAdmin req res = next_err UnauthorizedError
     /\ ensureAdminOrSelf req res = next_err UnauthorizedError)
    /\ (forall hs s payload,
          headers = Some hs ->
          get hs "authorization" = JsStr s ->
          s <> "" ->
          jwt_verify (trim (replace_bearer s)) SECRET_KEY = Some payload ->
          ensureLoggedIn req res = next
          /\ (truthy (get payload "isAdmin") = true ->
              ensureAdmin req res = next
              /\ ensureAdminOrSelf req res = next)).
Proof.
  intros K verify headers req res.
  assert (Hs : forall hs s,
             headers = Some hs -> get hs "authorization" = JsStr s ->
             s <> "" ->
             res = match verify (trim (replace_bearer s)) K with
                   | Some payload => {| user := Some payload |}
                   | None => {| user := None |}
                   end).
  { intros hs s -> E Hne. unfold res, authenticateJWT. rewrite E. simpl.
    apply String.eqb_neq in Hne. rewrite Hne. simpl.
    now destruct (verify (trim (replace_bearer s)) K). }
  split.
  - intros Hfail.
    assert (E : res = {| user := None |}).
    { destruct (authenticateJWT_cases K verify headers {| user := None |})
        as [_ [E|(hs & s & payload & Hh & Hg & Hv & _)]]; [exact E|].
      destruct (String.eqb_spec s "") as [->|Hne].
      - unfold res, authenticateJWT. rewrite Hh, Hg. reflexivity.
      - rewrite (Hfail hs s Hh Hg Hne) in Hv. discriminate. }
    rewrite E. repeat split.
  - intros hs s payload Hh Hg Hne Hv.
    rewrite (Hs hs s Hh Hg Hne), Hv.
    split; [reflexivity|]. intros Ha.
    unfold ensureAdmin, ensureAdminOrSelf. simpl. rewrite Ha. split; reflexivity.
Qed.

Lemma gates_after_authenticateJWT_witness :
  let verify (token key : string) :=
    if (token =? "abc.def")%string
    then Some [("username", JsStr "root"); ("isAdmin", JsBool true)]
    else None in
  let req := {| params := [("username", JsStr "u1")] |} in
  let bad := Some [("authorization", JsStr "Bearer forged")] in
  let good := Some [("authorization", JsStr "Bearer abc.def")] in
  ensureAdmin req (fst (authenticateJWT "k" verify bad {| user := None |}))
  = next_err UnauthorizedError
  /\ ensureAdminOrSelf req
       (fst (authenticateJWT "k" verify good {| user := None |}))
     = next.
Proof.
  intros verify req bad good.
  destruct (gates_after_authenticateJWT "k" verify bad req) as [Hbad _].
  destruct (gates_after_authenticateJWT "k" verify good req) as [_ Hgood].
  split.
  - apply Hbad. intros hs s E Hg _. injection E as <-.
    cbn in Hg. injection Hg as <-. reflexivity.
  - destruct (Hgood [("authorization", JsStr "Bearer abc.def")]
                "Bearer abc.def"
                [("username", JsStr "root"); ("isAdmin", JsBool true)]
                eq_refl eq_refl) as [_ Ha]; [discriminate | reflexivity |].
    apply Ha. reflexivity.
Defined.

End Gates.

(** ** Running the model functions against a store *)

Section Running.
Import Text Clause.

Lemma sends_only_exec {A S : Type} (P : string -> list JsValue -> Prop)
  (store : Store S) (m : Db A) :
  sends_only P m ->
  forall s, Forall (fun q => P (fst q) (snd q)) (sent (exec store m s)).
Proof.
  induction 1 as [a|e|text parameters k HP Hk IH]; intros s; simpl.
  - constructor.
  - constructor.
  - destruct (store s text parameters) as [[e|r] s']; simpl.
    + repeat constructor. exact HP.
    + constructor; [exact HP | apply IH].
Qed.

Lemma params_app (ts ts' : list Token) :
  params (ts ++ ts') = (params ts ++ params ts')%list.
Proof.
  induction ts as [|[name|n|c|name] ts IH]; simpl; rewrite ?IH; reflexivity.
Qed.

(** Text without quotes and dollars holds no placeholder and does not
    change how the rest is read. *)
Lemma placeholders_plain (s : string) :
  mentions "034"%char s = false ->
  mentions "$"%char s = false ->
  forall t, placeholders (s ++ t) = placeholders t.
Proof.
  unfold placeholders, tokens.
  induction s as [|c s IH]; intros Hq Hd t; [reflexivity|].
  simpl in Hq, Hd.
  apply orb_false_elim in Hq as [Hq Hq'].
  apply orb_false_elim in Hd as [Hd Hd'].
  cbn [append lex flush app]. rewrite Hq, Hd. cbn [params].
  now apply IH.
Qed.

(** An assignment clause followed by a space and more text. *)
Lemma tokens_clause_space (ps : list (string * nat)) (rest : string) :
  ps <> [] ->
  (forall p, In p ps -> quote_free (fst p) = true) ->
  tokens (join ", " (map assignment_token ps) ++ String " " rest)
  = (assignment_tokens ps ++ TChar " " :: tokens rest)%list.
Proof.
  unfold tokens.
  induction ps as [|p ps IH]; intros Hne Hq; [congruence|].
  destruct ps as [|q ps].
  - cbn [map join].
    rewrite lex_assignment_token by (apply Hq; now left).
    destruct p as [c i]. reflexivity.
  - change (join ", " (map assignment_token (p :: q :: ps)))
      with (assignment_token p ++ ", " ++ join ", " (map assignment_token (q :: ps))).
    rewrite !append_assoc.
    rewrite lex_assignment_token by (apply Hq; now left).
    destruct p as [c i].
    cbn [append lex digit_of flush app Ascii.eqb Bool.eqb fst snd].
    rewrite IH; [reflexivity | discriminate |].
    intros p Hp. apply Hq. now right.
Qed.

Lemma placeholders_param (n : nat) (post : string) :
  placeholders (("$" ++ Number_toString n) ++ String " " post)
  = n :: placeholders post.
Proof.
  unfold placeholders, tokens.
  change (("$" ++ Number_toString n) ++ String " " post)
    with (String "$" (Number_toString n ++ String " " post)).
  change (lex Plain (String "$" ?s)) with (lex Dollar s).
  rewrite lex_number. reflexivity.
Qed.

(** The placeholders of an assignment clause followed by a space and more
    text. *)
Lemma placeholders_clause (columns : list string) (rest : string) :
  columns <> [] ->
  (forall c, In c columns -> quote_free c = true) ->
  placeholders
    (join ", " (map assignment_token (numbered columns)) ++ String " " rest)
  = (seq 1 (List.length columns) ++ placeholders rest)%list.
Proof.
  intros Hne Hq. unfold placeholders. rewrite tokens_clause_space.
  - now rewrite params_app, params_assignment_tokens, numbered_snd.
  - intros E. apply numbered_nil in E. congruence.
  - intros p Hp. apply Hq. rewrite <- (numbered_fst columns). now apply in_map.
Qed.

Lemma seq_snoc (n : nat) : (seq 1 n ++ [n + 1])%list = seq 1 (n + 1).
Proof. rewrite seq_app. cbn [seq]. now rewrite Nat.add_1_r. Qed.

(** The columns of the two field maps in use are free of quotes when the
    keys are. *)
Lemma quote_free_resolved (M : JsObject) (keys : list string) :
  (forall k v, In (k, v) M ->
               exists c, v = JsStr c /\ c <> "" /\ quote_free c = true) ->
  (forall k, In k keys -> quote_free k = true) ->
  forall c, In c (map (resolved_column M) keys) -> quote_free c = true.
Proof.
  intros HM Hk c Hc. apply in_map_iff in Hc as (k & <- & Hin).
  unfold resolved_column.
  destruct (present M k).
  - assert (G : get M k = JsUndefined
                \/ exists c, get M k = JsStr c /\ quote_free c = true).
    { clear Hk Hin. induction M as [|[k' v] M IH]; [now left|]. simpl.
      destruct (k' =? k).
      - right. destruct (HM k' v (or_introl eq_refl)) as (c & -> & _ & Hc).
        now exists c.
      - apply IH. intros k0 v0 H0. apply (HM k0 v0). now right. }
    destruct G as [->|(c & -> & Hc)]; simpl.
    + now apply Hk.
    + destruct (negb (c =? "")); [exact Hc | now apply Hk].
  - destruct (inherited k) as [text|] eqn:E.
    + exact (inherited_quote_free k text E).
    + now apply Hk.
Qed.

(** The text of an [update] statement, read piece by piece. *)
Ltac read_update Hne Hq :=
  unfold well_numbered;
  repeat (rewrite placeholders_plain by reflexivity);
  lazymatch goal with
  | |- context [join ", " ?l ++ " " ++ ?x] =>
      change (join ", " l ++ " " ++ x) with (join ", " l ++ String " " x)
  end;
  rewrite placeholders_clause; [| exact Hne | exact Hq];
  repeat (rewrite placeholders_plain by reflexivity);
  lazymatch goal with
  | |- context [("$" ++ Number_toString ?n) ++ " " ++ ?x] =>
      change (("$" ++ Number_toString n) ++ " " ++ x)
        with (("$" ++ Number_toString n) ++ String " " x);
      rewrite placeholders_param;
      replace (placeholders x) with (@nil nat) by reflexivity
  end.

Lemma update_numbered (M : JsObject) (data : JsObject)
  (r : Sql.PartialUpdate) (key : JsValue) :
  (forall c, In c (map (resolved_column M) (Object_keys data)) ->
             quote_free c = true) ->
  Sql.sqlForPartialUpdate data M = inr r ->
  let idx := "$" ++ Number_toString (List.length (Sql.values r) + 1) in
  let parameters := (Sql.values r ++ [key])%list in
  well_numbered (Company.update_text (Sql.setCols r) idx) parameters
  /\ well_numbered (User.update_text (Sql.setCols r) idx) parameters
  /\ well_numbered (Job.update_text (Sql.setCols r) idx) parameters
  /\ well_numbered
       (JobAlt.update_text (Sql.setCols r) (List.length (Sql.values r)))
       parameters.
Proof.
  intros Hq H idx parameters.
  apply sqlForPartialUpdate_inv in H as (Hd & Hs & Hv).
  assert (Hne : map (resolved_column M) (Object_keys data) <> []).
  { intros E. apply map_eq_nil, map_eq_nil in E. congruence. }
  assert (Hl : List.length (Sql.values r)
               = List.length (map (resolved_column M) (Object_keys data))).
  { rewrite Hv. unfold Object_values, Object_keys. now rewrite !length_map. }
  assert (Hp : List.length parameters = List.length (Sql.values r) + 1).
  { unfold parameters. rewrite length_app. reflexivity. }
  unfold idx, Company.update_text, User.update_text, Job.update_text,
    JobAlt.update_text.
  rewrite Hs, cols_numbered.
  repeat split.
  - read_update Hne Hq. now rewrite Hp, <- seq_snoc, Hl.
  - read_update Hne Hq. now rewrite Hp, <- seq_snoc, Hl.
  - read_update Hne Hq. now rewrite Hp, <- seq_snoc, Hl.
  - change ("      WHERE id = $" ++ ?x)
      with ("      WHERE id = " ++ ("$" ++ x)).
    change ("$" ++ Number_toString ?n ++ ?x)
      with (("$" ++ Number_toString n) ++ x).
    read_update Hne Hq. now rewrite Hp, <- seq_snoc, Hl.
Qed.

Lemma sends_numbered {A S : Type} (store : Store S) (m : Db A) (s : S) :
  sends_only well_numbered m -> all_numbered (exec store m s).
Proof. intros H. now apply sends_only_exec. Qed.

(** Walking through the queries of a model function. *)
Ltac walk :=
  repeat first
    [ apply sends_ret
    | apply sends_throw
    | apply sends_query; [reflexivity | intros ?]
    | match goal with
      | |- sends_only _ (match ?x with _ => _ end) => destruct x
      | |- sends_only _ (if ?x then _ else _) => destruct x
      end ].

Lemma company_update_sends (handle : JsValue) (data : JsObject) :
  (forall k, In k (Object_keys data) -> quote_free k = true) ->
  sends_only well_numbered (Company.update handle data).
Proof.
  intros Hq. unfold Company.update.
  destruct (Sql.sqlForPartialUpdate data Company.jsToSql) as [e|r] eqn:E;
    [constructor|].
  apply sends_query; [|intros res; destruct (first_row res); constructor].
  apply (update_numbered Company.jsToSql data r handle); [|exact E].
  apply quote_free_resolved; [|exact Hq].
  intros k v [H|[H|[]]]; injection H as <- <-; eexists;
    (split; [reflexivity | split; [discriminate | reflexivity]]).
Qed.

Lemma company_findAll_sends (StringToNumber : string -> option Z)
  (arg : option JsObject) :
  sends_only well_numbered (Company.findAll StringToNumber arg).
Proof.
  unfold Company.findAll.
  destruct (_ && _); [constructor|].
  pose proof (company_filters_well_numbered
                (get match arg with Some o => o | None => [] end "minEmployees")
                (get match arg with Some o => o | None => [] end "maxEmployees")
                (get match arg with Some o => o | None => [] end "name")) as H.
  destruct (Company.findAll_filters _ _ _) as [filters parameters].
  apply sends_query; [apply H | intros r; constructor].
Qed.

(** X6.  Every query the company model sends, whatever the store answers,
    has exactly the placeholders [$1 ... $n] for its [n] parameters; for
    [update] this holds when the keys of the data hold no double quote. *)
Theorem company_queries_numbered :
  forall (S : Type) (store : Store S) (s : S),
    (forall data, all_numbered (exec store (Company.create data) s))
    /\ (forall StringToNumber arg,
          all_numbered (exec store (Company.findAll StringToNumber arg) s))
    /\ (forall handle, all_numbered (exec store (Company.get handle) s))
    /\ (forall handle data,
          (forall k, In k (Object_keys data) -> quote_free k = true) ->
          all_numbered (exec store (Company.update handle data) s))
    /\ (forall handle, all_numbered (exec store (Company.remove handle) s)).
Proof.
  intros S store s.
  split; [intros data; apply sends_numbered; unfold Company.create; walk|].
  split; [intros stn arg; apply sends_numbered, company_findAll_sends|].
  split; [intros h; apply sends_numbered; unfold Company.get; walk|].
  split; [intros h data Hq; now apply sends_numbered, company_update_sends|].
  intros h. apply sends_numbered. unfold Company.remove. walk.
Qed.

Lemma company_queries_numbered_witness :
  let store : Store unit :=
    fun _ _ _ => (inr {| rows := [[("handle", JsStr "c1")]] |}, tt) in
  let data := [("name", JsStr "New"); ("numEmployees", JsNum 10)] in
  (forall k, In k (Object_keys data) -> quote_free k = true)
  /\ all_numbered (exec store (Company.update (JsStr "c1") data) tt)
  /\ map snd (sent (exec store (Company.update (JsStr "c1") data) tt))
     = [[JsStr "New"; JsNum 10; JsStr "c1"]].
Proof.
  intros store data.
  assert (Hq : forall k, In k (Object_keys data) -> quote_free k = true).
  { intros k [<-|[<-|[]]]; reflexivity. }
  split; [exact Hq|]. split; [|reflexivity].
  exact (proj1 (proj2 (proj2 (proj2 (company_queries_numbered unit store tt))))
           (JsStr "c1") data Hq).
Defined.

(** ** Writes behind a check *)

(** X7.  [Company.create] sends its INSERT only after the duplicate check
    came back without a row, and then with the five fields of the data in
    column order; when the check finds a row it throws [BadRequestError]
    naming the handle and sends nothing more. *)
Theorem company_create_checks_first :
  forall (S : Type) (store : Store S) (s : S) (data : JsObject),
    let handle := get data "handle" in
    let o := exec store (Company.create data) s in
    (forall ps,
        In (Company.create_insert, ps) (sent o) ->
        exists r s',
          store s Company.create_check [handle] = (inr r, s')
          /\ rows r = []
          /\ ps = [handle; get data "name"; get data "description";
                   get data "numEmployees"; get data "logoUrl"])
    /\ (forall r s',
          store s Company.create_check [handle] = (inr r, s') ->
          rows r <> [] ->
          result o = inl (BadRequestError
                            ("Duplicate company: " ++ ToString handle))
          /\ sent o = [(Company.create_check, [handle])]
          /\ final o = s').
Proof.
  intros S store s data handle o. subst o. unfold Company.create.
  fold handle. cbn [exec].
  destruct (store s Company.create_check [handle]) as [[e|r] s'] eqn:E.
  - split; [|discriminate].
    intros ps [H|[]]. discriminate.
  - unfold first_row. destruct (rows r) as [|row rest] eqn:Er; cbn [hd_error exec].
    + split; [|intros r0 s0 H0; injection H0 as <- <-; congruence].
      intros ps Hin. exists r, s'. split; [reflexivity|]. split; [exact Er|].
      destruct (store s' Company.create_insert _) as [[e|r'] s'']; cbn in Hin;
        destruct Hin as [H|[H|[]]]; try discriminate; now injection H as <-.
    + split.
      * intros ps [H|[]]. discriminate.
      * intros r0 s0 H0 _. injection H0 as <- <-. repeat split.
Qed.

Lemma company_create_checks_first_witness :
  let store : Store nat :=
    fun n text _ =>
      (inr {| rows := if (text =? Company.create_check)%string
                      then [[("handle", JsStr "c1")]] else [] |}, S n) in
  let data := [("handle", JsStr "c1"); ("name", JsStr "C1")] in
  let o := exec store (Company.create data) 0 in
  result o = inl (BadRequestError "Duplicate company: c1")
  /\ sent o = [(Company.create_check, [JsStr "c1"])]
  /\ final o = 1.
Proof.
  intros store data o.
  exact (proj2 (company_create_checks_first nat store 0 data)
           {| rows := [[("handle", JsStr "c1")]] |} 1 eq_refl
           ltac:(discriminate)).
Defined.

(** X8.  [create] of [models/job.js] sends its INSERT only after the
    company check came back with a row; when the check finds none it
    throws [BadRequestError] naming the company handle and sends nothing
    more. *)
Theorem job_create_checks_first :
  forall (S : Type) (store : Store S) (s : S) (data : JsObject),
    let companyHandle := get data "companyHandle" in
    let o := exec store (Job.create data) s in
    (forall ps,
        In (Job.create_insert, ps) (sent o) ->
        exists r s',
          store s Job.create_check [companyHandle] = (inr r, s')
          /\ rows r <> []
          /\ ps = [get data "title"; get data "salary"; get data "equity";
                   companyHandle])
    /\ (forall r s',
          store s Job.create_check [companyHandle] = (inr r, s') ->
          rows r = [] ->
          result o = inl (BadRequestError
                            ("Company handle " ++ ToString companyHandle
                               ++ " not found."))
          /\ sent o = [(Job.create_check, [companyHandle])]
          /\ final o = s').
Proof.
  intros S store s data companyHandle o. subst o. unfold Job.create.
  fold companyHandle. cbn [exec].
  destruct (store s Job.create_check [companyHandle]) as [[e|r] s'] eqn:E.
  - split; [|discriminate].
    intros ps [H|[]]. discriminate.
  - destruct (rows r) as [|row rest] eqn:Er; cbn [List.length Nat.eqb exec].
    + split.
      * intros ps [H|[]]. discriminate.
      * intros r0 s0 H0 _. injection H0 as <- <-. repeat split.
    + split; [|intros r0 s0 H0; injection H0 as <- <-; congruence].
      intros ps Hin. exists r, s'. split; [reflexivity|].
      split; [congruence|].
      destruct (store s' Job.create_insert _) as [[e|r'] s'']; cbn in Hin;
        destruct Hin as [H|[H|[]]]; try discriminate; now injection H as <-.
Qed.

Lemma job_create_checks_first_witness :
  let store : Store unit := fun _ _ _ => (inr {| rows := [] |}, tt) in
  let data := [("title", JsStr "t"); ("companyHandle", JsStr "nope")] in
  let o := exec store (Job.create data) tt in
  result o = inl (BadRequestError "Company handle nope not found.")
  /\ sent o = [(Job.create_check, [JsStr "nope"])]
  /\ final o = tt.
Proof.
  intros store data o.
  exact (proj2 (job_create_checks_first unit store tt data)
           {| rows := [] |} tt eq_refl eq_refl).
Defined.

(** X9.  [User.register] sends its INSERT only after the duplicate check
    came back without a row and the hashing succeeded, and the parameter in
    the password position is then the hash; a duplicate gives
    [BadRequestError] naming the username, a failed hashing gives that
    failure, and in both cases nothing more is sent. *)
Theorem user_register_checks_first :
  forall (S : Type) (store : Store S) (s : S)
         (WORK_FACTOR : JsValue)
         (bcrypt_hash : JsValue -> JsValue -> Exception + JsValue)
         (data : JsObject),
    let username := get data "username" in
    let o := exec store (User.register WORK_FACTOR bcrypt_hash data) s in
    (forall ps,
        In (User.register_insert, ps) (sent o) ->
        exists r s' hashed,
          store s User.register_check [username] = (inr r, s')
          /\ rows r = []
          /\ bcrypt_hash (get data "password") WORK_FACTOR = inr hashed
          /\ ps = [username; hashed; get data "firstName";
                   get data "lastName"; get data "email";
                   get data "isAdmin"])
    /\ (forall r s',
          store s User.register_check [username] = (inr r, s') ->
          rows r <> [] ->
          result o = inl (BadRequestError
                            ("Duplicate username: " ++ ToString username))
          /\ sent o = [(User.register_check, [username])]
          /\ final o = s')
    /\ (forall r s' e,
          store s User.register_check [username] = (inr r, s') ->
          rows r = [] ->
          bcrypt_hash (get data "password") WORK_FACTOR = inl e ->
          result o = inl e
          /\ sent o = [(User.register_check, [username])]
          /\ final o = s').
Proof.
  intros S store s WF hash data username o. subst o. unfold User.register.
  fold username. cbn [exec].
  destruct (store s User.register_check [username]) as [[e|r] s'] eqn:E.
  - split; [|split; discriminate].
    intros ps [H|[]]. discriminate.
  - unfold first_row. destruct (rows r) as [|row rest] eqn:Er; cbn [hd_error].
    + destruct (hash (get data "password") WF) as [e|hashed] eqn:Eh;
        cbn [exec].
      * split; [intros ps [H|[]]; discriminate|].
        split; [intros r0 s0 H0; injection H0 as <- <-; congruence|].
        intros r0 s0 e0 H0 _ He. injection H0 as <- <-. injection He as <-.
        repeat split.
      * split; [|split; [intros r0 s0 H0; injection H0 as <- <-; congruence
                        | intros r0 s0 e0 _ _ He; discriminate]].
        intros ps Hin.
        exists r, s', hashed. split; [reflexivity|]. split; [exact Er|].
        split; [reflexivity|].
        destruct (store s' User.register_insert _) as [[e|r'] s''];
          cbn in Hin; destruct Hin as [H|[H|[]]]; try discriminate;
          now injection H as <-.
    + cbn [exec]. split; [intros ps [H|[]]; discriminate|].
      split.
      * intros r0 s0 H0 _. injection H0 as <- <-. repeat split.
      * intros r0 s0 e0 H0 Hr. injection H0 as <- <-. congruence.
Qed.

Lemma user_register_checks_first_witness :
  let store : Store unit := fun _ _ _ => (inr {| rows := [] |}, tt) in
  let hash (password factor : JsValue) : Exception + JsValue :=
    inr (JsStr ("#" ++ ToString password)) in
  let data := [("username", JsStr "u1"); ("password", JsStr "secret")] in
  let o := exec store (User.register (JsNum 12) hash data) tt in
  In (User.register_insert,
      [JsStr "u1"; JsStr "#secret"; JsUndefined; JsUndefined; JsUndefined;
       JsUndefined]) (sent o)
  /\ exists r s' hashed,
      store tt User.register_check [JsStr "u1"] = (inr r, s')
      /\ rows r = []
      /\ hash (JsStr "secret") (JsNum 12) = inr hashed
      /\ hashed = JsStr "#secret".
Proof.
  intros store hash data o.
  assert (Hin : In (User.register_insert,
                    [JsStr "u1"; JsStr "#secret"; JsUndefined; JsUndefined;
                     JsUndefined; JsUndefined]) (sent o)).
  { right. left. reflexivity. }
  split; [exact Hin|].
  destruct (proj1 (user_register_checks_first unit store tt (JsNum 12) hash
                     data) _ Hin) as (r & s' & hashed & H1 & H2 & H3 & H4).
  exists r, s', hashed. repeat split; try assumption.
  cbn in H3. now injection H3 as <-.
Defined.

(** X10.  [User.applyToJob] asks for the job first and for the user
    second, and sends its INSERT only when both were found; a missing job
    ends the call with [NotFoundError] before the user is asked for. *)
Theorem applyToJob_checks_first :
  forall (S : Type) (store : Store S) (s : S) (username jobId : JsValue),
    let o := exec store (User.applyToJob username jobId) s in
    (forall ps,
        In (User.apply_insert, ps) (sent o) ->
        ps = [jobId; username]
        /\ exists r s' r2 s'',
             store s User.apply_job_check [jobId] = (inr r, s')
             /\ rows r <> []
             /\ store s' User.apply_user_check [username] = (inr r2, s'')
             /\ rows r2 <> [])
    /\ (forall r s',
          store s User.apply_job_check [jobId] = (inr r, s') ->
          rows r = [] ->
          result o = inl (NotFoundError
                            ("No job with ID: " ++ ToString jobId))
          /\ sent o = [(User.apply_job_check, [jobId])])
    /\ (forall r s' r2 s'',
          store s User.apply_job_check [jobId] = (inr r, s') ->
          rows r <> [] ->
          store s' User.apply_user_check [username] = (inr r2, s'') ->
          rows r2 = [] ->
          result o = inl (NotFoundError
                            ("No user with username: " ++ ToString username))
          /\ sent o = [(User.apply_job_check, [jobId]);
                       (User.apply_user_check, [username])]).
Proof.
  intros S store s username jobId o. subst o. unfold User.applyToJob.
  cbn [exec].
  destruct (store s User.apply_job_check [jobId]) as [[e|r] s'] eqn:E.
  - split; [|split; discriminate].
    intros ps [H|[]]. discriminate.
  - unfold first_row.
    destruct (rows r) as [|row rest] eqn:Er; cbn [hd_error exec].
    + split; [intros ps [H|[]]; discriminate|].
      split.
      * intros r0 s0 H0 _. injection H0 as <- <-. split; reflexivity.
      * intros r0 s0 r2 s2 H0 Hr. injection H0 as <- <-. congruence.
    + destruct (store s' User.apply_user_check [username])
        as [[e|r2] s''] eqn:E2.
      * split; [intros ps [H|[H|[]]]; discriminate|].
        split; [intros r0 s0 H0; injection H0 as <- <-; congruence|].
        intros r0 s0 r3 s3 H0 _. injection H0 as <- <-. congruence.
      * destruct (rows r2) as [|row2 rest2] eqn:Er2; cbn [hd_error exec].
        -- split; [intros ps [H|[H|[]]]; discriminate|].
           split; [intros r0 s0 H0; injection H0 as <- <-; congruence|].
           intros r0 s0 r3 s3 H0 _ H3 _. injection H0 as <- <-.
           rewrite E2 in H3. injection H3 as <- <-. split; reflexivity.
        -- split.
           ++ intros ps Hin.
              assert (Hps : ps = [jobId; username]).
              { destruct (store s'' User.apply_insert _) as [[e|r'] s3];
                  cbn in Hin; destruct Hin as [H|[H|[H|[]]]];
                  try discriminate; now injection H as <-. }
              split; [exact Hps|].
              exists r, s', r2, s''. rewrite Er, Er2.
              repeat split; try discriminate. exact E2.
           ++ split; [intros r0 s0 H0; injection H0 as <- <-; congruence|].
              intros r0 s0 r3 s3 H0 _ H3. injection H0 as <- <-.
              rewrite E2 in H3. injection H3 as <- <-. congruence.
Qed.

Lemma applyToJob_checks_first_witness :
  let store : Store unit :=
    fun _ text _ =>
      (inr {| rows := if (text =? User.apply_job_check)%string
                      then [[("id", JsNum 7)]] else [] |}, tt) in
  let o := exec store (User.applyToJob (JsStr "ghost") (JsNum 7)) tt in
  result o = inl (NotFoundError "No user with username: ghost")
  /\ sent o = [(User.apply_job_check, [JsNum 7]);
               (User.apply_user_check, [JsStr "ghost"])].
Proof.
  intros store o.
  exact (proj2 (proj2 (applyToJob_checks_first unit store tt
                         (JsStr "ghost") (JsNum 7)))
           {| rows := [[("id", JsNum 7)]] |} tt {| rows := [] |} tt
           eq_refl ltac:(discriminate) eq_refl eq_refl).
Defined.

(** ** Keys that are not there *)

Ltac answered :=
  match goal with
  | H : answers_empty _ _ _ _ _ |- _ =>
      let r := fresh "r" in let E := fresh "E" in let Er := fresh "Er" in
      destruct H as (r & E & Er); cbn [exec]; rewrite E;
      try unfold first_row; rewrite Er
  | H : answers_row _ _ _ _ _ _ |- _ =>
      let r := fresh "r" in let rest := fresh "rest" in
      let E := fresh "E" in let Er := fresh "Er" in
      destruct H as (r & rest & E & Er); cbn [exec]; rewrite E;
      try unfold first_row; rewrite Er
  end.

(** X11.  In the company model, [get] and [remove] throw [NotFoundError]
    when the store answers their query without a row, and [update] does so
    for non-empty data; each has then sent that one query and nothing
    else.  With a row, [remove] succeeds, [update] returns the row, and
    [get] goes on to ask for the jobs of the same handle. *)
Theorem company_missing_key :
  forall (S : Type) (store : Store S) (s s' : S) (handle : JsValue),
    (answers_empty store s Company.get_company [handle] s' ->
     let o := exec store (Company.get handle) s in
     result o = inl (NotFoundError
                       ("Company with handle '" ++ ToString handle
                          ++ "' not found"))
     /\ sent o = [(Company.get_company, [handle])] /\ final o = s')
    /\ (forall row,
          answers_row store s Company.get_company [handle] row s' ->
          let o := exec store (Company.get handle) s in
          firstn 2 (sent o) = [(Company.get_company, [handle]);
                               (Company.get_jobs, [handle])]
          /\ forall c, result o = inr c -> Company.company c = row)
    /\ (answers_empty store s Company.remove_text [handle] s' ->
        let o := exec store (Company.remove handle) s in
        result o = inl (NotFoundError ("No company: " ++ ToString handle))
        /\ sent o = [(Company.remove_text, [handle])] /\ final o = s')
    /\ (forall row,
          answers_row store s Company.remove_text [handle] row s' ->
          result (exec store (Company.remove handle) s) = inr tt)
    /\ (forall data r text,
          Sql.sqlForPartialUpdate data Company.jsToSql = inr r ->
          text = Company.update_text (Sql.setCols r)
                   ("$" ++ Number_toString (List.length (Sql.values r) + 1)) ->
          (answers_empty store s text (Sql.values r ++ [handle]) s' ->
           let o := exec store (Company.update handle data) s in
           result o = inl (NotFoundError ("No company: " ++ ToString handle))
           /\ sent o = [(text, (Sql.values r ++ [handle])%list)]
           /\ final o = s')
          /\ (forall row,
                answers_row store s text (Sql.values r ++ [handle]) row s' ->
                result (exec store (Company.update handle data) s)
                = inr row)).
Proof.
  intros S store s s' handle.
  split; [intros H; cbv zeta; unfold Company.get; answered; repeat split|].
  split.
  { intros row H. cbv zeta. unfold Company.get. answered. cbn [hd_error exec].
    destruct (store s' Company.get_jobs [handle]) as [[e|r2] s2]; cbn.
    - split; [reflexivity | discriminate].
    - split; [reflexivity|]. intros c Hc. now injection Hc as <-. }
  split; [intros H; cbv zeta; unfold Company.remove; answered; repeat split|].
  split; [intros row H; unfold Company.remove; answered; reflexivity|].
  intros data r text Hr ->. unfold Company.update. rewrite Hr.
  split; [intros H; cbv zeta; answered; repeat split|].
  intros row H. answered. reflexivity.
Qed.

Lemma company_missing_key_witness :
  let store : Store nat := fun n _ _ => (inr {| rows := [] |}, S n) in
  let data := [("name", JsStr "New")] in
  let r := {| Sql.setCols := dquote ++ "name" ++ dquote ++ "=$1";
              Sql.values := [JsStr "New"] |} in
  let text := Company.update_text (Sql.setCols r) "$2" in
  Sql.sqlForPartialUpdate data Company.jsToSql = inr r
  /\ answers_empty store 0 text [JsStr "New"; JsStr "nope"] 1
  /\ result (exec store (Company.update (JsStr "nope") data) 0)
     = inl (NotFoundError "No company: nope")
  /\ sent (exec store (Company.update (JsStr "nope") data) 0)
     = [(text, [JsStr "New"; JsStr "nope"])]
  /\ result (exec store (Company.get (JsStr "nope")) 0)
     = inl (NotFoundError "Company with handle 'nope' not found").
Proof.
  intros store data r text.
  assert (He : forall t ps,
             answers_empty store 0 t ps 1).
  { intros t ps. exists {| rows := [] |}. split; reflexivity. }
  destruct (company_missing_key nat store 0 1 (JsStr "nope"))
    as (Hget & _ & _ & _ & Hupd).
  destruct (Hupd data r text eq_refl eq_refl) as [Hu _].
  destruct (Hu (He _ _)) as (H1 & H2 & _).
  destruct (Hget (He _ _)) as (H3 & _).
  split; [reflexivity|]. split; [apply He|].
  split; [exact H1|]. split; [exact H2 | exact H3].
Defined.

(** X12.  The same in the two job models: [get], [remove] and (for
    non-empty data) [update] throw [NotFoundError] after the one query the
    store answered without a row.  With a row, [remove] succeeds and
    [update] returns it; [get] of [models/job.js] returns it, while the
    other [get] asks for the company named by the row's [companyHandle] and
    returns the row without that property. *)
Theorem job_missing_key :
  forall (S : Type) (store : Store S) (s s' : S) (id : JsValue),
    (answers_empty store s Job.get_text [id] s' ->
     let o := exec store (Job.get id) s in
     result o = inl (NotFoundError ("No job found with ID: " ++ ToString id))
     /\ sent o = [(Job.get_text, [id])] /\ final o = s')
    /\ (forall row,
          answers_row store s Job.get_text [id] row s' ->
          result (exec store (Job.get id) s) = inr row)
    /\ (answers_empty store s Job.remove_text [id] s' ->
        let o := exec store (Job.remove id) s in
        result o = inl (NotFoundError ("No job found with ID: " ++ ToString id))
        /\ sent o = [(Job.remove_text, [id])] /\ final o = s')
    /\ (forall row,
          answers_row store s Job.remove_text [id] row s' ->
          result (exec store (Job.remove id) s) = inr tt)
    /\ (answers_empty store s JobAlt.get_job [id] s' ->
        let o := exec store (JobAlt.get id) s in
        result o = inl (NotFoundError ("No job: " ++ ToString id))
        /\ sent o = [(JobAlt.get_job, [id])] /\ final o = s')
    /\ (forall row,
          answers_row store s JobAlt.get_job [id] row s' ->
          let o := exec store (JobAlt.get id) s in
          firstn 2 (sent o)
          = [(JobAlt.get_job, [id]);
             (JobAlt.get_company, [get row "companyHandle"])]
          /\ forall j, result o = inr j ->
                       JobAlt.job j = delete row "companyHandle"
                       /\ get (JobAlt.job j) "companyHandle" = JsUndefined)
    /\ (answers_empty store s JobAlt.remove_text [id] s' ->
        let o := exec store (JobAlt.remove id) s in
        result o = inl (NotFoundError ("No job: " ++ ToString id))
        /\ sent o = [(JobAlt.remove_text, [id])] /\ final o = s')
    /\ (forall row,
          answers_row store s JobAlt.remove_text [id] row s' ->
          result (exec store (JobAlt.remove id) s) = inr tt)
    /\ (forall data r,
          Sql.sqlForPartialUpdate data [] = inr r ->
          let parameters := (Sql.values r ++ [id])%list in
          let text :=
            Job.update_text (Sql.setCols r)
              ("$" ++ Number_toString (List.length (Sql.values r) + 1)) in
          let text' :=
            JobAlt.update_text (Sql.setCols r) (List.length (Sql.values r)) in
          (answers_empty store s text parameters s' ->
           let o := exec store (Job.update id data) s in
           result o
           = inl (NotFoundError ("No job found with ID: " ++ ToString id))
           /\ sent o = [(text, parameters)] /\ final o = s')
          /\ (forall row,
                answers_row store s text parameters row s' ->
                result (exec store (Job.update id data) s) = inr row)
          /\ (answers_empty store s text' parameters s' ->
              let o := exec store (JobAlt.update id data) s in
              result o = inl (NotFoundError ("No job: " ++ ToString id))
              /\ sent o = [(text', parameters)] /\ final o = s')
          /\ (forall row,
                answers_row store s text' parameters row s' ->
                result (exec store (JobAlt.update id data) s) = inr row)).
Proof.
  intros S store s s' id.
  split; [intros H; cbv zeta; unfold Job.get; answered; repeat split|].
  split; [intros row H; unfold Job.get; answered; reflexivity|].
  split; [intros H; cbv zeta; unfold Job.remove; answered; repeat split|].
  split; [intros row H; unfold Job.remove; answered; reflexivity|].
  split; [intros H; cbv zeta; unfold JobAlt.get; answered; repeat split|].
  split.
  { intros row H. cbv zeta. unfold JobAlt.get. answered. cbn [hd_error exec].
    destruct (store s' JobAlt.get_company _) as [[e|r2] s2]; cbn.
    - split; [reflexivity | discriminate].
    - split; [reflexivity|]. intros j Hj. injection Hj as <-. cbn.
      split; [reflexivity | apply get_delete_same]. }
  split; [intros H; cbv zeta; unfold JobAlt.remove; answered; repeat split|].
  split; [intros row H; unfold JobAlt.remove; answered; reflexivity|].
  intros data r Hr. cbv zeta. unfold Job.update, JobAlt.update. rewrite Hr.
  split; [intros H; answered; repeat split|].
  split; [intros row H; answered; reflexivity|].
  split; [intros H; answered; repeat split|].
  intros row H; answered; reflexivity.
Qed.

Lemma job_missing_key_witness :
  let row := [("id", JsNum 1); ("title", JsStr "Job1");
              ("companyHandle", JsStr "c1")] in
  let store : Store nat :=
    fun n text _ =>
      (inr {| rows := if (text =? JobAlt.get_job)%string then [row] else [] |},
       S n) in
  answers_row store 0 JobAlt.get_job [JsNum 1] row 1
  /\ sent (exec store (JobAlt.get (JsNum 1)) 0)
     = [(JobAlt.get_job, [JsNum 1]); (JobAlt.get_company, [JsStr "c1"])]
  /\ result (exec store (JobAlt.get (JsNum 1)) 0)
     = inr {| JobAlt.job := [("id", JsNum 1); ("title", JsStr "Job1")];
              JobAlt.company := None |}
  /\ answers_empty store 0 Job.get_text [JsNum 1] 1
  /\ result (exec store (Job.get (JsNum 1)) 0)
     = inl (NotFoundError "No job found with ID: 1").
Proof.
  intros row store.
  assert (Hr : answers_row store 0 JobAlt.get_job [JsNum 1] row 1).
  { exists {| rows := [row] |}, []. split; reflexivity. }
  assert (He : answers_empty store 0 Job.get_text [JsNum 1] 1).
  { exists {| rows := [] |}. split; reflexivity. }
  destruct (job_missing_key nat store 0 1 (JsNum 1))
    as (Hget & _ & _ & _ & _ & Halt & _).
  destruct (Halt row Hr) as [_ Hj].
  destruct (Hget He) as (H1 & _).
  split; [exact Hr|]. split; [reflexivity|]. split; [reflexivity|].
  split; [exact He | exact H1].
Defined.

(** ** The user model *)

(** X13.  In the user model, [get] and [remove] throw [NotFoundError]
    naming the user when the store answers without a row, having sent that
    one query.  With a row, [get] asks for the applications of the same
    username and returns the row with the [job_id] of each application, in
    the order of the rows. *)
Theorem user_missing_key :
  forall (S : Type) (store : Store S) (s s' : S) (username : JsValue),
    (answers_empty store s User.get_user [username] s' ->
     let o := exec store (User.get username) s in
     result o = inl (NotFoundError ("No user: " ++ ToString username))
     /\ sent o = [(User.get_user, [username])] /\ final o = s')
    /\ (forall row,
          answers_row store s User.get_user [username] row s' ->
          let o := exec store (User.get username) s in
          firstn 2 (sent o) = [(User.get_user, [username]);
                               (User.get_jobs, [username])]
          /\ forall r2 s2,
               store s' User.get_jobs [username] = (inr r2, s2) ->
               result o
               = inr {| User.user := row;
                        User.jobs := map (fun a => get a "job_id") (rows r2) |})
    /\ (answers_empty store s User.remove_text [username] s' ->
        let o := exec store (User.remove username) s in
        result o = inl (NotFoundError ("No user: " ++ ToString username))
        /\ sent o = [(User.remove_text, [username])] /\ final o = s')
    /\ (forall row,
          answers_row store s User.remove_text [username] row s' ->
          result (exec store (User.remove username) s) = inr tt).
Proof.
  intros S store s s' username.
  split; [intros H; cbv zeta; unfold User.get; answered; repeat split|].
  split.
  { intros row H. cbv zeta. unfold User.get. answered. cbn [hd_error exec].
    destruct (store s' User.get_jobs [username]) as [[e|r2] s2]; cbn.
    - split; [reflexivity | discriminate].
    - split; [reflexivity|]. intros r3 s3 H3. now injection H3 as <- <-. }
  split; [intros H; cbv zeta; unfold User.remove; answered; repeat split|].
  intros row H. unfold User.remove. answered. reflexivity.
Qed.

Lemma user_missing_key_witness :
  let row := [("username", JsStr "u1"); ("isAdmin", JsBool false)] in
  let store : Store nat :=
    fun n text _ =>
      (inr {| rows := if (text =? User.get_user)%string then [row]
                      else [[("job_id", JsNum 4)]; [("job_id", JsNum 9)]] |},
       S n) in
  answers_row store 0 User.get_user [JsStr "u1"] row 1
  /\ result (exec store (User.get (JsStr "u1")) 0)
     = inr {| User.user := row; User.jobs := [JsNum 4; JsNum 9] |}.
Proof.
  intros row store.
  assert (Hr : answers_row store 0 User.get_user [JsStr "u1"] row 1).
  { exists {| rows := [row] |}, []. split; reflexivity. }
  split; [exact Hr|].
  destruct (proj1 (proj2 (user_missing_key nat store 0 1 (JsStr "u1")))
              row Hr) as [_ H].
  exact (H _ 2 eq_refl).
Defined.

Lemma get_set_same (o : JsObject) (k : string) (v : JsValue) :
  get (Js.set o k v) k = v.
Proof.
  induction o as [|[k' x] o IH]; simpl.
  - now rewrite String.eqb_refl.
  - destruct (k' =? k) eqn:E; simpl; rewrite E; [reflexivity | exact IH].
Qed.

Lemma get_set_other (o : JsObject) (k k' : string) (v : JsValue) :
  k' <> k -> get (Js.set o k v) k' = get o k'.
Proof.
  intros Hne. induction o as [|[k0 x] o IH]; simpl.
  - apply String.eqb_neq in Hne. rewrite String.eqb_sym in Hne.
    now rewrite Hne.
  - destruct (String.eqb_spec k0 k) as [->|Hk]; simpl.
    + destruct (String.eqb_spec k k') as [->|_]; [congruence | reflexivity].
    + now rewrite IH.
Qed.

Lemma set_present (o : JsObject) (k : string) (v : JsValue) :
  In k (Object_keys o) ->
  Object_keys (Js.set o k v) = Object_keys o
  /\ (NoDup (Object_keys o) ->
      Js.set o k v
      = map (fun kv => (fst kv, if fst kv =? k then v else snd kv)) o).
Proof.
  induction o as [|[k0 x] o IH]; intros Hin; simpl in *; [tauto|].
  destruct (String.eqb_spec k0 k) as [->|Hk]; simpl.
  - split; [reflexivity|]. intros ND. inversion ND as [|? ? Hnot _]; subst.
    f_equal. clear IH Hin ND.
    induction o as [|[k1 y] o IH]; simpl; [reflexivity|].
    simpl in Hnot.
    destruct (String.eqb_spec k1 k) as [->|_]; [tauto|].
    rewrite <- IH by tauto. reflexivity.
  - destruct Hin as [Hin|Hin]; [congruence|].
    destruct (IH Hin) as [IH1 IH2].
    split; [now rewrite IH1|]. intros ND. inversion ND; subst.
    now rewrite IH2.
Qed.

Lemma truthy_present (o : JsObject) (k : string) :
  truthy (get o k) = true -> In k (Object_keys o).
Proof.
  intros H. destruct (in_dec string_dec k (Object_keys o)) as [Hin|Hnot];
    [exact Hin|].
  rewrite get_not_in in H by exact Hnot. discriminate.
Qed.

(** X14.  [User.update] and the password.  A falsy password (absent, or the
    empty string) is not hashed: the data goes to the builder as it is.  A
    truthy one is hashed first; if the hashing fails the call fails with
    it, the caller's object untouched; if it succeeds the hash is written
    into the caller's object in place of the password, every other
    property kept, and the parameters of the UPDATE are the values of that
    object followed by the username. *)
Theorem user_update_password :
  forall (WORK_FACTOR : JsValue)
         (bcrypt_hash : JsValue -> JsValue -> Exception + JsValue)
         (username : JsValue) (data : JsObject),
    let out := User.update WORK_FACTOR bcrypt_hash username data in
    (truthy (get data "password") = false ->
     out = (data, User.update_query username data))
    /\ (forall e,
          truthy (get data "password") = true ->
          bcrypt_hash (get data "password") WORK_FACTOR = inl e ->
          out = (data, Throw e))
    /\ (forall hashed,
          truthy (get data "password") = true ->
          bcrypt_hash (get data "password") WORK_FACTOR = inr hashed ->
          NoDup (Object_keys data) ->
          Object_keys (fst out) = Object_keys data
          /\ Object_values (fst out)
             = map (fun kv => if fst kv =? "password" then hashed else snd kv)
                 data
          /\ forall (S : Type) (store : Store S) (s : S),
               exists text,
                 hd_error (sent (exec store (snd out) s))
                 = Some (text, (Object_values (fst out) ++ [username])%list)).
Proof.
  intros WF hash username data out. subst out. unfold User.update.
  split; [intros ->; reflexivity|].
  split; [intros e -> ->; reflexivity|].
  intros hashed Ht Hh ND. rewrite Ht, Hh. cbn [fst snd].
  pose proof (truthy_present _ _ Ht) as Hin.
  destruct (set_present data "password" hashed Hin) as [Hk Hm].
  split; [exact Hk|].
  split.
  - rewrite (Hm ND). unfold Object_values. rewrite map_map. reflexivity.
  - intros S store s. unfold User.update_query.
    rewrite sqlForPartialUpdate_inr.
    + cbn [exec Sql.setCols Sql.values].
      eexists.
      destruct (store s _ _) as [[e|r] s']; cbn [sent hd_error]; reflexivity.
    + intros E. rewrite E in Hk. destruct data; [destruct Hin | discriminate].
Qed.

Lemma user_update_password_witness :
  let hash (password factor : JsValue) : Exception + JsValue :=
    inr (JsStr ("#" ++ ToString password)) in
  let data := [("firstName", JsStr "Ann"); ("password", JsStr "secret");
               ("email", JsStr "a@b.c")] in
  let store : Store unit := fun _ _ _ => (inr {| rows := [] |}, tt) in
  let out := User.update (JsNum 12) hash (JsStr "u1") data in
  truthy (get data "password") = true
  /\ NoDup (Object_keys data)
  /\ fst out = [("firstName", JsStr "Ann"); ("password", JsStr "#secret");
                ("email", JsStr "a@b.c")]
  /\ map snd (sent (exec store (snd out) tt))
     = [[JsStr "Ann"; JsStr "#secret"; JsStr "a@b.c"; JsStr "u1"]]
  /\ Object_values (fst out)
     = map (fun kv => if fst kv =? "password" then JsStr "#secret"
                      else snd kv) data.
Proof.
  intros hash data store out.
  assert (ND : NoDup (Object_keys data)).
  { repeat constructor; simpl; intuition discriminate. }
  destruct (proj2 (proj2 (user_update_password (JsNum 12) hash (JsStr "u1")
                            data)) (JsStr "#secret") eq_refl eq_refl ND)
    as (_ & Hv & _).
  split; [reflexivity|]. split; [exact ND|]. split; [reflexivity|].
  split; [reflexivity | exact Hv].
Defined.

(** X15.  After its UPDATE, [User.update] does what [User.get] does: when
    the store answers the UPDATE with a row, the rest of the run, its
    result included, is the run of [get] for the same username from the
    state the store is then in; when it answers without a row the call
    throws [NotFoundError] and [get] is not run. *)
Theorem user_update_then_get :
  forall (S : Type) (store : Store S) (s s' : S) (username : JsValue)
         (data : JsObject) (r : Sql.PartialUpdate),
    Sql.sqlForPartialUpdate data User.jsToSql = inr r ->
    let parameters := (Sql.values r ++ [username])%list in
    let text :=
      User.update_text (Sql.setCols r)
        ("$" ++ Number_toString (List.length (Sql.values r) + 1)) in
    let o := exec store (User.update_query username data) s in
    (forall row,
        answers_row store s text parameters row s' ->
        let g := exec store (User.get username) s' in
        result o = result g
        /\ sent o = (text, parameters) :: sent g
        /\ final o = final g)
    /\ (answers_empty store s text parameters s' ->
        result o = inl (NotFoundError ("No user: " ++ ToString username))
        /\ sent o = [(text, parameters)]
        /\ final o = s').
Proof.
  intros S store s s' username data r Hr parameters text o.
  subst o text parameters. unfold User.update_query. rewrite Hr.
  split.
  - intros row H. cbv zeta. answered. cbn [hd_error]. repeat split.
  - intros H. answered. repeat split.
Qed.

Lemma user_update_then_get_witness :
  let row := [("username", JsStr "u1")] in
  let store : Store nat :=
    fun n text _ =>
      (inr {| rows := if (text =? User.get_jobs)%string then [] else [row] |},
       S n) in
  let data := [("firstName", JsStr "Ann")] in
  let r := {| Sql.setCols := dquote ++ "first_name" ++ dquote ++ "=$1";
              Sql.values := [JsStr "Ann"] |} in
  Sql.sqlForPartialUpdate data User.jsToSql = inr r
  /\ result (exec store (User.update_query (JsStr "u1") data) 0)
     = inr {| User.user := row; User.jobs := [] |}
  /\ List.length (sent (exec store (User.update_query (JsStr "u1") data) 0))
     = 3.
Proof.
  intros row store data r.
  split; [reflexivity|].
  destruct (proj1 (user_update_then_get nat store 0 1 (JsStr "u1") data r
                     eq_refl) row) as (H1 & H2 & _).
  { exists {| rows := [row] |}, []. split; reflexivity. }
  split; [rewrite H1; reflexivity | rewrite H2; reflexivity].
Defined.

(** X16.  [User.authenticate] sends one query, with the username as its
    only parameter.  What it returns is a row the store gave for that
    username, without its [password] property, and only if the comparison
    of the given password with that property answered [true]; an unknown
    username and a password that does not match end in the same
    [UnauthorizedError]. *)
Theorem authenticate_outcomes :
  forall (S : Type) (store : Store S) (s : S)
         (bcrypt_compare : JsValue -> JsValue -> Exception + JsValue)
         (username password : JsValue),
    let o := exec store (User.authenticate bcrypt_compare username password) s in
    sent o = [(User.authenticate_text, [username])]
    /\ (forall u,
          result o = inr u ->
          get u "password" = JsUndefined
          /\ exists row s',
               answers_row store s User.authenticate_text [username] row s'
               /\ bcrypt_compare password (get row "password")
                  = inr (JsBool true)
               /\ u = delete row "password")
    /\ (forall s',
          answers_empty store s User.authenticate_text [username] s' ->
          result o = inl UnauthorizedError)
    /\ (forall row s' answer,
          answers_row store s User.authenticate_text [username] row s' ->
          bcrypt_compare password (get row "password") = inr answer ->
          answer <> JsBool true ->
          result o = inl UnauthorizedError).
Proof.
  intros S store s compare username password o. subst o.
  unfold User.authenticate, answers_empty, answers_row. cbn [exec].
  destruct (store s User.authenticate_text [username]) as [[e|r] s'] eqn:E.
  - split; [reflexivity|].
    split; [intros u Hu; cbn in Hu; discriminate|].
    split; [intros s0 (r0 & H0 & _); discriminate|].
    intros row s0 answer (r0 & rest & H0 & _). discriminate.
  - unfold first_row. destruct (rows r) as [|row rest] eqn:Er; cbn [hd_error].
    + split; [reflexivity|].
      split; [intros u Hu; cbn in Hu; discriminate|].
      split; [reflexivity|].
      intros row s0 answer (r0 & rest & H0 & Hr0) _ _.
      injection H0 as <- <-. congruence.
    + assert (Hrow : forall row0 s0,
                 (exists r0 rest0,
                     (inr r, s') = (@inr Exception _ r0, s0)
                     /\ rows r0 = row0 :: rest0) ->
                 row0 = row).
      { intros row0 s0 (r0 & rest0 & H0 & Hr0). injection H0 as <- <-.
        congruence. }
      destruct (compare password (get row "password")) as [e|isValid] eqn:Ec.
      * split; [reflexivity|].
        split; [intros u Hu; cbn in Hu; discriminate|].
        split; [intros s0 (r0 & H0 & Hr0); injection H0 as <- <-; congruence|].
        intros row0 s0 answer H Hc _.
        rewrite (Hrow row0 s0 H) in Hc. congruence.
      * unfold strict_neq. rewrite negb_involutive.
        destruct (JsValue_eqb isValid (JsBool true)) eqn:Ev.
        -- assert (isValid = JsBool true) as ->.
           { destruct isValid as [| |b| |]; try discriminate.
             destruct b; [reflexivity | discriminate]. }
           split; [reflexivity|].
           split.
           { intros u Hu. injection Hu as <-.
             split; [apply get_delete_same|].
             exists row, s'. split; [now exists r, rest|]. now split. }
           split; [intros s0 (r0 & H0 & Hr0); injection H0 as <- <-; congruence|].
           intros row0 s0 answer H Hc Hne.
           rewrite (Hrow row0 s0 H) in Hc. congruence.
        -- split; [reflexivity|].
           split; [intros u Hu; cbn in Hu; discriminate|].
           split; [intros s0 (r0 & H0 & Hr0); injection H0 as <- <-; congruence|].
           reflexivity.
Qed.

Lemma authenticate_outcomes_witness :
  let row := [("username", JsStr "u1"); ("password", JsStr "#secret")] in
  let store : Store unit :=
    fun _ _ ps =>
      (inr {| rows := match ps with
                      | [JsStr "u1"] => [row]
                      | _ => []
                      end |}, tt) in
  let compare (password hashed : JsValue) : Exception + JsValue :=
    inr (JsBool (JsValue_eqb hashed (JsStr ("#" ++ ToString password)))) in
  result (exec store (User.authenticate compare (JsStr "u1") (JsStr "secret")) tt)
  = inr [("username", JsStr "u1")]
  /\ answers_row store tt User.authenticate_text [JsStr "u1"] row tt
  /\ compare (JsStr "wrong") (get row "password") = inr (JsBool false)
  /\ result (exec store (User.authenticate compare (JsStr "u1") (JsStr "wrong")) tt)
     = inl UnauthorizedError
  /\ answers_empty store tt User.authenticate_text [JsStr "u2"] tt
  /\ result (exec store (User.authenticate compare (JsStr "u2") (JsStr "secret")) tt)
     = inl UnauthorizedError.
Proof.
  intros row store compare.
  assert (Hr : answers_row store tt User.authenticate_text [JsStr "u1"] row tt).
  { exists {| rows := [row] |}, []. split; reflexivity. }
  assert (He : answers_empty store tt User.authenticate_text [JsStr "u2"] tt).
  { exists {| rows := [] |}. split; reflexivity. }
  destruct (authenticate_outcomes unit store tt compare (JsStr "u1")
              (JsStr "wrong")) as (_ & _ & _ & Hwrong).
  destruct (authenticate_outcomes unit store tt compare (JsStr "u2")
              (JsStr "secret")) as (_ & _ & Hunknown & _).
  split; [reflexivity|]. split; [exact Hr|]. split; [reflexivity|].
  split; [exact (Hwrong row tt (JsBool false) Hr eq_refl ltac:(discriminate))|].
  split; [exact He | exact (Hunknown tt He)].
Defined.

(** ** [Job.searchAll] *)

Lemma delete_nil (o : JsObject) (k : string) :
  delete o k = [] <-> (forall k', In k' (Object_keys o) -> k' = k).
Proof.
  unfold delete. induction o as [|[k0 v] o IH]; simpl.
  - split; [intros _ k' [] | reflexivity].
  - destruct (String.eqb_spec k0 k) as [->|Hne]; simpl.
    + rewrite IH. split.
      * intros H k' [<-|Hk]; [reflexivity | now apply H].
      * intros H k' Hk. apply H. now right.
    + split; [discriminate|]. intros H. exfalso. apply Hne, H. now left.
Qed.

(** X17.  [Job.searchAll] can filter by [hasEquity] and by nothing else:
    when the object it is given has any other property the call throws a
    [TypeError] and no query is sent; when it has none the one query sent
    has no parameter and its WHERE holds the equity predicate if
    [hasEquity] is truthy, nothing if not. *)
Theorem searchAll_only_hasEquity :
  forall (fields : Job.Ref) (h : Job.Heap),
    ((exists k, In k (Object_keys (h fields)) /\ k <> "hasEquity") ->
     snd (Job.searchAll fields h)
     = Throw (TypeError "sqlForQuery is not a function")
     /\ forall (S : Type) (store : Store S) (s : S),
          sent (exec store (snd (Job.searchAll fields h)) s) = [])
    /\ ((forall k, In k (Object_keys (h fields)) -> k = "hasEquity") ->
        snd (Job.searchAll fields h)
        = Query
            (Job.searchAll_text
               (if truthy (get (h fields) "hasEquity") then "equity > 0"
                else ""))
            [] (fun jobsRes => Ret (rows jobsRes))).
Proof.
  intros fields h. unfold Job.searchAll, Job.heap_set.
  rewrite Nat.eqb_refl. unfold Object_keys at 2 4. rewrite length_map.
  split.
  - intros (k & Hin & Hne).
    destruct (delete (h fields) "hasEquity") as [|kv o] eqn:E.
    + exfalso. apply Hne. now apply (proj1 (delete_nil _ _) E).
    + split; reflexivity.
  - intros H. rewrite (proj2 (delete_nil _ _) H). cbn [List.length Nat.eqb snd].
    now destruct (truthy (get (h fields) "hasEquity")).
Qed.

Lemma searchAll_only_hasEquity_witness :
  let h : Job.Heap :=
    fun r => if (r =? 0)%nat
             then [("hasEquity", JsBool true); ("minSalary", JsNum 10)]
             else [("hasEquity", JsBool true)] in
  (exists k, In k (Object_keys (h 0)) /\ k <> "hasEquity")
  /\ snd (Job.searchAll 0 h) = Throw (TypeError "sqlForQuery is not a function")
  /\ (forall k, In k (Object_keys (h 1)) -> k = "hasEquity")
  /\ snd (Job.searchAll 1 h)
     = Query (Job.searchAll_text "equity > 0") []
         (fun jobsRes => Ret (rows jobsRes)).
Proof.
  intros h.
  assert (H0 : exists k, In k (Object_keys (h 0)) /\ k <> "hasEquity").
  { exists "minSalary". split; [right; now left | discriminate]. }
  assert (H1 : forall k, In k (Object_keys (h 1)) -> k = "hasEquity").
  { intros k [<-|[]]. reflexivity. }
  split; [exact H0|].
  split; [exact (proj1 (proj1 (searchAll_only_hasEquity 0 h) H0))|].
  split; [exact H1|].
  exact (proj2 (searchAll_only_hasEquity 1 h) H1).
Defined.

(** ** The clause determines the columns *)

(** X18.  Two calls of [sqlForPartialUpdate] that return the same
    [setCols] wrote the same columns in the same order, provided no column
    name holds a double quote: the clause can be read back. *)
Theorem setCols_injective :
  forall (C C' M M' : JsObject) (r r' : Sql.PartialUpdate),
    (forall c, In c (map (resolved_column M) (Object_keys C)) ->
               quote_free c = true) ->
    (forall c, In c (map (resolved_column M') (Object_keys C')) ->
               quote_free c = true) ->
    Sql.sqlForPartialUpdate C M = inr r ->
    Sql.sqlForPartialUpdate C' M' = inr r' ->
    Sql.setCols r = Sql.setCols r' ->
    map (resolved_column M) (Object_keys C)
    = map (resolved_column M') (Object_keys C')
    /\ List.length (Sql.values r) = List.length (Sql.values r').
Proof.
  intros C C' M M' r r' Hq Hq' H H' E.
  assert (G : forall D N x,
             (forall c, In c (map (resolved_column N) (Object_keys D)) ->
                        quote_free c = true) ->
             Sql.sqlForPartialUpdate D N = inr x ->
             Store.parse_assignments (tokens (Sql.setCols x))
             = Some (numbered (map (resolved_column N) (Object_keys D)))
             /\ List.length (Sql.values x)
                = List.length (map (resolved_column N) (Object_keys D))).
  { intros D N x HqD HD. apply sqlForPartialUpdate_inv in HD as (Hne & Hs & Hv).
    assert (Hn : numbered (map (resolved_column N) (Object_keys D)) <> []).
    { intros E0. apply numbered_nil, map_eq_nil, map_eq_nil in E0. congruence. }
    split.
    - rewrite Hs, cols_numbered, tokens_clause, parse_assignment_tokens;
        [reflexivity | exact Hn | exact Hn |].
      intros p Hp. apply HqD. rewrite <- (numbered_fst (map _ _)).
      now apply in_map.
    - rewrite Hv. unfold Object_values, Object_keys. now rewrite !length_map. }
  destruct (G C M r Hq H) as [P L]. destruct (G C' M' r' Hq' H') as [P' L'].
  rewrite E, P' in P. injection P as P.
  assert (Hc : map (resolved_column M) (Object_keys C)
               = map (resolved_column M') (Object_keys C')).
  { rewrite <- (numbered_fst (map (resolved_column M) (Object_keys C))).
    rewrite <- P. apply numbered_fst. }
  split; [exact Hc | now rewrite L, L', Hc].
Qed.

Lemma setCols_injective_witness :
  let C := [("numEmployees", JsNum 3)] in
  let C' := [("num_employees", JsNull)] in
  let r := {| Sql.setCols := dquote ++ "num_employees" ++ dquote ++ "=$1";
              Sql.values := [JsNum 3] |} in
  let r' := {| Sql.setCols := Sql.setCols r; Sql.values := [JsNull] |} in
  Sql.sqlForPartialUpdate C Company.jsToSql = inr r
  /\ Sql.sqlForPartialUpdate C' [] = inr r'
  /\ map (resolved_column Company.jsToSql) (Object_keys C)
     = map (resolved_column []) (Object_keys C').
Proof.
  intros C C' r r'. split; [reflexivity|]. split; [reflexivity|].
  refine (proj1 (setCols_injective C C' Company.jsToSql [] r r' _ _
                   eq_refl eq_refl eq_refl)).
  - intros c [<-|[]]. reflexivity.
  - intros c [<-|[]]. reflexivity.
Defined.

(** ** Placeholders and parameters of every query *)

Lemma job_update_sends (id : JsValue) (data : JsObject) :
  (forall k, In k (Object_keys data) -> quote_free k = true) ->
  sends_only well_numbered (Job.update id data)
  /\ sends_only well_numbered (JobAlt.update id data).
Proof.
  intros Hq. unfold Job.update, JobAlt.update.
  destruct (Sql.sqlForPartialUpdate data []) as [e|r] eqn:E;
    [split; constructor|].
  assert (Hc : forall c, In c (map (resolved_column []) (Object_keys data)) ->
                         quote_free c = true).
  { apply quote_free_resolved; [intros k v []|exact Hq]. }
  destruct (update_numbered [] data r id Hc E) as (_ & _ & Hj & Ha).
  split; (apply sends_query; [assumption | intros res]).
  - destruct (first_row res); constructor.
  - destruct (rows res); constructor.
Qed.

Lemma jobalt_findAll_sends (arg : option JsObject) :
  sends_only well_numbered (JobAlt.findAll arg).
Proof.
  unfold JobAlt.findAll.
  pose proof (job_conditions_well_numbered
                (get match arg with Some o => o | None => [] end "minSalary")
                (get match arg with Some o => o | None => [] end "hasEquity")
                (get match arg with Some o => o | None => [] end "title")) as H.
  destruct (JobAlt.findAll_conditions _ _ _) as [conditions values].
  apply sends_query; [apply H | intros r; constructor].
Qed.

(** X19.  Every query the two job models send, whatever the store
    answers, has exactly the placeholders [$1 ... $n] for its [n]
    parameters; for the two [update] functions this holds when the keys of
    the data hold no double quote. *)
Theorem job_queries_numbered :
  forall (S : Type) (store : Store S) (s : S),
    (forall data, all_numbered (exec store (Job.create data) s))
    /\ all_numbered (exec store Job.findAll s)
    /\ (forall fields h,
          all_numbered (exec store (snd (Job.searchAll fields h)) s))
    /\ (forall id, all_numbered (exec store (Job.get id) s))
    /\ (forall id, all_numbered (exec store (Job.remove id) s))
    /\ (forall data, all_numbered (exec store (JobAlt.create data) s))
    /\ (forall arg, all_numbered (exec store (JobAlt.findAll arg) s))
    /\ (forall id, all_numbered (exec store (JobAlt.get id) s))
    /\ (forall id, all_numbered (exec store (JobAlt.remove id) s))
    /\ (forall id data,
          (forall k, In k (Object_keys data) -> quote_free k = true) ->
          all_numbered (exec store (Job.update id data) s)
          /\ all_numbered (exec store (JobAlt.update id data) s)).
Proof.
  intros S store s.
  split; [intros data; apply sends_numbered; unfold Job.create; walk|].
  split; [apply sends_numbered; unfold Job.findAll; walk|].
  split.
  { intros fields h. apply sends_numbered. unfold Job.searchAll.
    destruct (_ =? 0)%nat; [|constructor]. cbn [snd].
    destruct (truthy (get (h fields) "hasEquity")); walk. }
  split; [intros id; apply sends_numbered; unfold Job.get; walk|].
  split; [intros id; apply sends_numbered; unfold Job.remove; walk|].
  split; [intros data; apply sends_numbered; unfold JobAlt.create; walk|].
  split; [intros arg; apply sends_numbered, jobalt_findAll_sends|].
  split; [intros id; apply sends_numbered; unfold JobAlt.get; walk|].
  split; [intros id; apply sends_numbered; unfold JobAlt.remove; walk|].
  intros id data Hq. destruct (job_update_sends id data Hq).
  split; now apply sends_numbered.
Qed.

Lemma job_queries_numbered_witness :
  let store : Store unit := fun _ _ _ => (inr {| rows := [] |}, tt) in
  let data := [("title", JsStr "Updated Title"); ("salary", JsNum 70000)] in
  (forall k, In k (Object_keys data) -> quote_free k = true)
  /\ all_numbered (exec store (Job.update (JsNum 4) data) tt)
  /\ all_numbered (exec store (JobAlt.update (JsNum 4) data) tt)
  /\ map snd (sent (exec store (Job.update (JsNum 4) data) tt))
     = [[JsStr "Updated Title"; JsNum 70000; JsNum 4]].
Proof.
  intros store data.
  assert (Hq : forall k, In k (Object_keys data) -> quote_free k = true).
  { intros k [<-|[<-|[]]]; reflexivity. }
  destruct (job_queries_numbered unit store tt)
    as (_ & _ & _ & _ & _ & _ & _ & _ & _ & H).
  destruct (H (JsNum 4) data Hq) as [H1 H2].
  split; [exact Hq|]. split; [exact H1|]. split; [exact H2 | reflexivity].
Defined.

Lemma user_update_query_sends (username : JsValue) (data : JsObject) :
  (forall k, In k (Object_keys data) -> quote_free k = true) ->
  sends_only well_numbered (User.update_query username data).
Proof.
  intros Hq. unfold User.update_query.
  destruct (Sql.sqlForPartialUpdate data User.jsToSql) as [e|r] eqn:E;
    [constructor|].
  apply sends_query.
  - apply (update_numbered User.jsToSql data r username); [|exact E].
    apply quote_free_resolved; [|exact Hq].
    intros k v [H|[H|[H|[]]]]; injection H as <- <-; eexists;
      (split; [reflexivity | split; [discriminate | reflexivity]]).
  - intros res. destruct (first_row res); [|constructor].
    unfold User.get. walk.
Qed.

(** X20.  Every query the user model sends, whatever the store answers and
    whatever the hashing and the comparison do, has exactly the
    placeholders [$1 ... $n] for its [n] parameters; for [update] this
    holds when the keys of the data hold no double quote. *)
Theorem user_queries_numbered :
  forall (S : Type) (store : Store S) (s : S)
         (WORK_FACTOR : JsValue)
         (bcrypt_hash bcrypt_compare : JsValue -> JsValue -> Exception + JsValue),
    (forall username password,
        all_numbered
          (exec store (User.authenticate bcrypt_compare username password) s))
    /\ (forall data,
          all_numbered
            (exec store (User.register WORK_FACTOR bcrypt_hash data) s))
    /\ all_numbered (exec store User.findAll s)
    /\ (forall username, all_numbered (exec store (User.get username) s))
    /\ (forall username, all_numbered (exec store (User.remove username) s))
    /\ (forall username jobId,
          all_numbered (exec store (User.applyToJob username jobId) s))
    /\ (forall username data,
          (forall k, In k (Object_keys data) -> quote_free k = true) ->
          all_numbered
            (exec store
               (snd (User.update WORK_FACTOR bcrypt_hash username data)) s)).
Proof.
  intros S store s WF hash compare.
  split; [intros u p; apply sends_numbered; unfold User.authenticate; walk|].
  split; [intros data; apply sends_numbered; unfold User.register; walk|].
  split; [apply sends_numbered; unfold User.findAll; walk|].
  split; [intros u; apply sends_numbered; unfold User.get; walk|].
  split; [intros u; apply sends_numbered; unfold User.remove; walk|].
  split; [intros u j; apply sends_numbered; unfold User.applyToJob; walk|].
  intros u data Hq. apply sends_numbered. unfold User.update.
  destruct (truthy (get data "password")) eqn:Ht;
    [|now apply user_update_query_sends].
  destruct (hash (get data "password") WF) as [e|hashed]; [constructor|].
  cbn [snd]. apply user_update_query_sends.
  destruct (set_present data "password" hashed (truthy_present _ _ Ht))
    as [Hk _].
  now rewrite Hk.
Qed.

Lemma user_queries_numbered_witness :
  let store : Store unit :=
    fun _ _ _ => (inr {| rows := [[("username", JsStr "u1")]] |}, tt) in
  let hash (password factor : JsValue) : Exception + JsValue :=
    inr (JsStr ("#" ++ ToString password)) in
  let data := [("lastName", JsStr "Lee"); ("password", JsStr "secret")] in
  let m := snd (User.update (JsNum 12) hash (JsStr "u1") data) in
  (forall k, In k (Object_keys data) -> quote_free k = true)
  /\ all_numbered (exec store m tt)
  /\ map snd (sent (exec store m tt))
     = [[JsStr "Lee"; JsStr "#secret"; JsStr "u1"]; [JsStr "u1"];
        [JsStr "u1"]].
Proof.
  intros store hash data m.
  assert (Hq : forall k, In k (Object_keys data) -> quote_free k = true).
  { intros k [<-|[<-|[]]]; reflexivity. }
  destruct (user_queries_numbered unit store tt (JsNum 12) hash hash)
    as (_ & _ & _ & _ & _ & _ & H).
  split; [exact Hq|]. split; [exact (H (JsStr "u1") data Hq) | reflexivity].
Defined.

(** ** What the filters accept *)

(** X21.  [Company.findAll] goes through to the store whenever a bound is
    missing or the minimum is not greater than the maximum (equal numbers
    included); both filtering [findAll] functions then send one query,
    which has a WHERE exactly when some filter is switched on.  In the
    company model every condition brings one parameter; in the job model
    the equity condition brings none. *)
Theorem findAll_where :
  forall (StringToNumber : string -> option Z) (arg : option JsObject),
    let spec := match arg with Some o => o | None => [] end in
    let minEmployees := get spec "minEmployees" in
    let maxEmployees := get spec "maxEmployees" in
    let name := get spec "name" in
    let minSalary := get spec "minSalary" in
    let hasEquity := get spec "hasEquity" in
    let title := get spec "title" in
    (defined minEmployees = false
     \/ defined maxEmployees = false
     \/ gt StringToNumber minEmployees maxEmployees = false ->
     let '(filters, parameters) :=
       Company.findAll_filters minEmployees maxEmployees name in
     Company.findAll StringToNumber arg
     = Query (Company.findAll_text filters) parameters
         (fun result => Ret (rows result))
     /\ List.length filters = List.length parameters
     /\ has_where (Company.findAll_text filters)
        = defined minEmployees || defined maxEmployees || truthy name)
    /\ (forall lo hi : Z,
          minEmployees = JsNum lo -> maxEmployees = JsNum hi ->
          (lo <= hi)%Z ->
          gt StringToNumber minEmployees maxEmployees = false)
    /\ (let '(conditions, values) :=
          JobAlt.findAll_conditions minSalary hasEquity title in
        JobAlt.findAll arg
        = Query (JobAlt.findAll_text conditions) values
            (fun result => Ret (rows result))
        /\ List.length conditions
           = List.length values + (if truthy hasEquity then 1 else 0)
        /\ has_where (JobAlt.findAll_text conditions)
           = defined minSalary || truthy hasEquity || truthy title).
Proof.
  intros stn arg spec minEmployees maxEmployees name minSalary hasEquity title.
  split; [|split].
  - intros Hok.
    assert (Hg : strict_neq minEmployees JsUndefined
                 && strict_neq maxEmployees JsUndefined
                 && gt stn minEmployees maxEmployees = false).
    { unfold defined in Hok. destruct Hok as [ -> | [ -> | -> ] ];
        rewrite ?andb_false_r; reflexivity. }
    unfold Company.findAll. fold spec minEmployees maxEmployees name.
    rewrite Hg. clear Hg Hok.
    unfold Company.findAll_filters, defined.
    destruct (strict_neq minEmployees JsUndefined),
      (strict_neq maxEmployees JsUndefined), (truthy name);
      repeat split.
  - intros lo hi -> -> Hle. simpl. now apply Z.ltb_ge.
  - unfold JobAlt.findAll. fold spec minSalary hasEquity title.
    unfold JobAlt.findAll_conditions, defined.
    destruct (strict_neq minSalary JsUndefined), (truthy hasEquity),
      (truthy title); repeat split.
Qed.

Lemma findAll_where_witness :
  let spec := [("minEmployees", JsNum 3); ("maxEmployees", JsNum 3);
               ("hasEquity", JsBool true)] in
  gt (fun _ => None) (get spec "minEmployees") (get spec "maxEmployees") = false
  /\ Company.findAll (fun _ => None) (Some spec)
     = Query
         (Company.findAll_text ["num_employees >= $1"; "num_employees <= $2"])
         [JsNum 3; JsNum 3] (fun result => Ret (rows result))
  /\ JobAlt.findAll (Some spec)
     = Query (JobAlt.findAll_text ["equity > 0"]) []
         (fun result => Ret (rows result)).
Proof.
  intros spec.
  destruct (findAll_where (fun _ => None) (Some spec)) as (Hc & Hle & Hj).
  assert (Hg : gt (fun _ => None) (get spec "minEmployees")
                 (get spec "maxEmployees") = false).
  { apply (Hle 3%Z 3%Z); [reflexivity | reflexivity | lia]. }
  split; [exact Hg|].
  split; [exact (proj1 (Hc (or_intror (or_intror Hg)))) | exact (proj1 Hj)].
Defined.

(** ** [update] without data *)

(** X22.  Given empty data, [update] of the company model, of
    [models/job.js] and of the user model throw the builder's
    [BadRequestError] and never reach the store; given any other data
    whose password, in the user model, is falsy, the first thing each
    sends is its UPDATE, with the values of the data in key order followed
    by the key of the row. *)
Theorem update_needs_data :
  forall (S : Type) (store : Store S) (s : S) (key : JsValue)
         (WORK_FACTOR : JsValue)
         (bcrypt_hash : JsValue -> JsValue -> Exception + JsValue),
    let none {A : Type} (o : Outcome A S) :=
      result o = inl (BadRequestError "No data") /\ sent o = [] /\ final o = s in
    (none (exec store (Company.update key []) s)
     /\ none (exec store (Job.update key []) s)
     /\ none (exec store
                (snd (User.update WORK_FACTOR bcrypt_hash key [])) s))
    /\ (forall data,
          data <> [] ->
          let first {A : Type} (o : Outcome A S) :=
            map snd (firstn 1 (sent o))
            = [(Object_values data ++ [key])%list] in
          first (exec store (Company.update key data) s)
          /\ first (exec store (Job.update key data) s)
          /\ first (exec store (JobAlt.update key data) s)
          /\ (truthy (get data "password") = false ->
              first (exec store
                       (snd (User.update WORK_FACTOR bcrypt_hash key data))
                       s))).
Proof.
  intros S store s key WF hash none.
  split; [repeat split|].
  intros data Hne first. subst first. cbv beta.
  unfold Company.update, Job.update, JobAlt.update, User.update,
    User.update_query.
  rewrite !sqlForPartialUpdate_inr by exact Hne.
  cbn [exec Sql.values Sql.setCols].
  repeat split.
  - destruct (store s _ _) as [[e|r] s']; reflexivity.
  - destruct (store s _ _) as [[e|r] s']; reflexivity.
  - destruct (store s _ _) as [[e|r] s']; reflexivity.
  - intros ->. cbn [snd exec Sql.values Sql.setCols].
    destruct (store s _ _) as [[e|r] s']; reflexivity.
Qed.

Lemma update_needs_data_witness :
  let store : Store unit := fun _ _ _ => (inl (TypeError "down"), tt) in
  let hash (password factor : JsValue) : Exception + JsValue :=
    inl (TypeError "unused") in
  let data := [("email", JsStr "a@b.c")] in
  data <> []
  /\ truthy (get data "password") = false
  /\ map snd (firstn 1 (sent (exec store
                                (snd (User.update (JsNum 12) hash
                                        (JsStr "u1") data)) tt)))
     = [[JsStr "a@b.c"; JsStr "u1"]]
  /\ result (exec store (Company.update (JsStr "c1") data) tt)
     = inl (TypeError "down").
Proof.
  intros store hash data.
  assert (Hne : data <> []) by discriminate.
  destruct (proj2 (update_needs_data unit store tt (JsStr "u1") (JsNum 12)
                     hash) data Hne) as (_ & _ & _ & Hu).
  split; [exact Hne|]. split; [reflexivity|].
  split; [exact (Hu eq_refl) | reflexivity].
Defined.

End Running.
